(** * GeoData: the mesh snapshot of the Mari USD reader

    A shallow embedding of [GeoData.cpp]: the path filter ([TestPath],
    [InitializePathSubstringLists]), the snapshot's validity check
    ([operator bool]) and the extracting constructor [GeoData::GeoData],
    followed by the properties established about them.

    The scene graph (USD), the host's trace facility and floating point
    arithmetic are collaborators of the code: a prim is the record of
    its fallible reads, the host's trace is the list of the source lines
    that called it, and the float and matrix operations are the fields
    of the class [Arith]. *)

From Stdlib Require Import ZArith List String Ascii Bool Lia.
Import ListNotations.

Local Open Scope string_scope.
Local Open Scope Z_scope.
Local Open Scope list_scope.

(* ================================================================== *)
(** ** Strings: [std::string::find] and [TfStringTokenize] *)

Module Str.

(** [s.find(pat)]: the first position at which [pat] occurs in [s];
    [None] stands for [string::npos]. *)
Fixpoint find (pat s : string) : option nat :=
  if String.prefix pat s then Some 0%nat
  else match s with
       | EmptyString => None
       | String _ s' => option_map S (find pat s')
       end.

(** [path.find(pat) != string::npos] *)
Definition contains (s pat : string) : bool :=
  match find pat s with Some _ => true | None => false end.

(** What "is a substring of" means. *)
Definition Substring (pat s : string) : Prop :=
  exists pre post, s = (pre ++ pat ++ post)%string.

Definition is_delim (delims : string) (c : ascii) : bool :=
  existsb (Ascii.eqb c) (list_ascii_of_string delims).

Definition flush (cur : string) : list string :=
  match cur with EmptyString => [] | _ => [cur] end.

(** The tokens of [s] after the characters accumulated in [cur]. *)
Fixpoint tokens_from (delims cur s : string) : list string :=
  match s with
  | EmptyString => flush cur
  | String c s' =>
      if is_delim delims c
      then flush cur ++ tokens_from delims EmptyString s'
      else tokens_from delims (cur ++ String c EmptyString)%string s'
  end.

(** USD's [TfStringTokenize(src, delimiters)]: the maximal runs of
    characters of [src] that are not delimiters; no token is empty. *)
Definition TfStringTokenize (src delims : string) : list string :=
  tokens_from delims EmptyString src.

End Str.

(* ================================================================== *)
(** ** The path filter *)

Module PathFilter.

(** The two static lists of [GeoData]. *)
Record Lists := {
  _requireGeomPathSubstring : list string;
  _ignoreGeomPathSubstring : list string
}.

Definition _requireGeomPathSubstringEnvVar : string :=
  "PX_USDREADER_REQUIRE_GEOM_PATH_SUBSTR".
Definition _ignoreGeomPathSubstringEnvVar : string :=
  "PX_USDREADER_IGNORE_GEOM_PATH_SUBSTR".

(** The process environment as [getenv] sees it: [None] is the null
    pointer of an unset variable. *)
Definition Env := string -> option string.

(** The first loop of [TestPath]; [found] is [requiredSubstringFound]
    on entry of the iteration, a match leaves the loop. *)
Fixpoint requireLoop (path : string) (l : list string) (found : bool) : bool :=
  match l with
  | [] => found
  | i :: rest =>
      if Str.contains path i then true
      else requireLoop path rest false
  end.

(** The second loop of [TestPath], with the [return true] after it. *)
Fixpoint ignoreLoop (path : string) (l : list string) : bool :=
  match l with
  | [] => true
  | i :: rest =>
      if Str.contains path i then false
      else ignoreLoop path rest
  end.

Definition TestPath (cfg : Lists) (path : string) : bool :=
  let requiredSubstringFound :=
    requireLoop path (_requireGeomPathSubstring cfg) true in
  if negb requiredSubstringFound then false
  else ignoreLoop path (_ignoreGeomPathSubstring cfg).

Definition InitializePathSubstringLists (getenv : Env) (cfg : Lists) : Lists :=
  let ignoreEnv := getenv _ignoreGeomPathSubstringEnvVar in
  let requireEnv := getenv _requireGeomPathSubstringEnvVar in
  let cfg1 :=
    match ignoreEnv with
    | Some v =>
        {| _requireGeomPathSubstring := _requireGeomPathSubstring cfg;
           _ignoreGeomPathSubstring := Str.TfStringTokenize v "," |}
    | None => cfg
    end in
  match requireEnv with
  | Some v =>
      {| _requireGeomPathSubstring := Str.TfStringTokenize v ",";
         _ignoreGeomPathSubstring := _ignoreGeomPathSubstring cfg1 |}
  | None => cfg1
  end.

End PathFilter.

(* ================================================================== *)
(** ** Numbers and matrices of the collaborating libraries *)

(** C++ [float] and [double] and the operations of [GfMatrix4d] and
    [GfVec4d] that the constructor calls. *)
Class Arith := {
  float : Type;
  double : Type;
  to_double : float -> double;
  to_float : double -> float;
  one : double;
  GfMatrix4d : Type;
  IDENTITY : GfMatrix4d;
  mat_mul : GfMatrix4d -> GfMatrix4d -> GfMatrix4d;
  GetInverse : GfMatrix4d -> GfMatrix4d;
  mat_neq : GfMatrix4d -> GfMatrix4d -> bool;
  vec_mul_mat :
    double * double * double * double -> GfMatrix4d ->
    double * double * double * double
}.

(** Conversions between [int] and [unsigned int] (32 bits). *)
Definition to_unsigned (i : Z) : Z := i mod 2 ^ 32.
Definition to_int (u : Z) : Z :=
  let w := u mod 2 ^ 32 in if w <? 2 ^ 31 then w else w - 2 ^ 32.

(** [0, 1, ..., n-1], what a loop [for (x = 0; x < n; ++x) push_back(x)]
    appends; the vectors here are shorter than [2^31]. *)
Definition iota (n : nat) : list Z := map Z.of_nat (seq 0%nat n).

(* ================================================================== *)
(** ** [std::map<int, V>]: an association list kept in key order *)

Module FrameMap.

Definition t (V : Type) := list (Z * V).

Definition empty {V} : t V := [].

Definition size {V} (m : t V) : nat := List.length m.

(** [m.begin()]: the entry of the least key. *)
Definition begin {V} (m : t V) : option (Z * V) := hd_error m.

Fixpoint find {V} (k : Z) (m : t V) : option V :=
  match m with
  | [] => None
  | (k', v) :: r => if (k =? k') then Some v else find k r
  end.

(** [m[k] = v] *)
Fixpoint insert {V} (k : Z) (v : V) (m : t V) : t V :=
  match m with
  | [] => [(k, v)]
  | (k', v') :: r =>
      if (k <? k') then (k, v) :: m
      else if (k =? k') then (k, v) :: r
      else (k', v') :: insert k v r
  end.

Definition keys {V} (m : t V) : list Z := map fst m.

(** The representation invariant: keys strictly increase. *)
Fixpoint wf_from {V} (lo : Z) (m : t V) : Prop :=
  match m with
  | [] => True
  | (k, _) :: r => lo < k /\ wf_from k r
  end.

Definition wf {V} (m : t V) : Prop :=
  match m with
  | [] => True
  | (k, _) :: r => wf_from k r
  end.

End FrameMap.

(* ================================================================== *)
(** ** The scene graph as the constructor reads it *)

Inductive UsdTimeCode :=
| Default
| EarliestTime
| TimeSample (t : Z).

Definition TfToken := string.

Module UsdGeomTokens.
Definition none : TfToken := "none".
Definition vertex : TfToken := "vertex".
Definition faceVarying : TfToken := "faceVarying".
Definition catmullClark : TfToken := "catmullClark".
Definition loop : TfToken := "loop".
Definition bilinear : TfToken := "bilinear".
Definition edgeAndCorner : TfToken := "edgeAndCorner".
Definition edgeOnly : TfToken := "edgeOnly".
Definition all : TfToken := "all".
Definition boundaries : TfToken := "boundaries".
Definition cornersPlus1 : TfToken := "cornersPlus1".
Definition cornersPlus2 : TfToken := "cornersPlus2".
End UsdGeomTokens.

Inductive SdfValueTypeName :=
| TexCoord2fArray
| Float2Array
| FloatArray
| OtherTypeName (n : string).

Definition is_TexCoord2fArray (t : SdfValueTypeName) : bool :=
  match t with TexCoord2fArray => true | _ => false end.
Definition is_Float2Array (t : SdfValueTypeName) : bool :=
  match t with Float2Array => true | _ => false end.

(** A primvar: its declaration and its two fallible reads. *)
Record UsdGeomPrimvar `{Arith} := {
  GetTypeName : SdfValueTypeName;
  GetInterpolation : TfToken;
  Get : UsdTimeCode -> option (list (float * float));
  GetIndices : UsdTimeCode -> option (list Z)
}.

(** A prim with the attributes of [UsdGeomMesh]; every [Get] answers
    [None] when the read fails.  [GetLocalToWorldTransform] is the
    transform an [UsdGeomXformCache] made for a time computes. *)
Record UsdPrim `{Arith} := {
  GetPathText : string;
  GetPathName : string;
  GetTypeNameText : string;
  IsMesh : bool;
  FaceVertexIndices_GetNumTimeSamples : nat;
  FaceVertexIndices_Get : UsdTimeCode -> option (list Z);
  FaceVertexCounts_Get : UsdTimeCode -> option (list Z);
  GetPrimvar : TfToken -> option UsdGeomPrimvar;
  Normals_Get : UsdTimeCode -> option (list (float * float * float));
  Points_Get : UsdTimeCode -> option (list (float * float * float));
  CreaseIndices_Get : option (list Z);
  CreaseLengths_Get : option (list Z);
  CreaseSharpnesses_Get : option (list float);
  CornerIndices_Get : option (list Z);
  CornerSharpnesses_Get : option (list float);
  HoleIndices_Get : option (list Z);
  SubdivisionScheme_Get : option TfToken;
  InterpolateBoundary_Get : option TfToken;
  FaceVaryingLinearInterpolation_Get : option TfToken;
  GetLocalToWorldTransform : Z -> GfMatrix4d
}.

(* ================================================================== *)
(** ** The snapshot *)

(** Modelled from the spec: the members of [GeoData] are declared in
    GeoData.h, which is not among the sources; they are the sequences and
    codes of the spec's mesh snapshot, with the element types of the
    constructor's assignments. *)
Record GeoData `{Arith} := {
  m_vertexIndices : list Z;
  m_faceCounts : list Z;
  m_faceSelectionIndices : list Z;
  m_vertices : FrameMap.t (list float);
  m_normalIndices : list Z;
  m_normals : list float;
  m_uvIndices : list Z;
  m_uvs : list float;
  m_creaseIndices : list Z;
  m_creaseLengths : list Z;
  m_creaseSharpness : list float;
  m_cornerIndices : list Z;
  m_cornerSharpness : list float;
  m_holeIndices : list Z;
  m_isSubdivMesh : bool;
  m_subdivisionScheme : string;
  m_interpolateBoundary : Z;
  m_faceVaryingLinearInterpolation : Z;
  m_propagateCorner : Z
}.

(** Assignments to one member; the others are copied. *)
Definition set_vertexIndices `{Arith} (v : list Z) (g : GeoData) : GeoData :=
  {| m_vertexIndices := v; m_faceCounts := m_faceCounts g;
     m_faceSelectionIndices := m_faceSelectionIndices g;
     m_vertices := m_vertices g; m_normalIndices := m_normalIndices g;
     m_normals := m_normals g; m_uvIndices := m_uvIndices g;
     m_uvs := m_uvs g; m_creaseIndices := m_creaseIndices g;
     m_creaseLengths := m_creaseLengths g;
     m_creaseSharpness := m_creaseSharpness g;
     m_cornerIndices := m_cornerIndices g;
     m_cornerSharpness := m_cornerSharpness g;
     m_holeIndices := m_holeIndices g; m_isSubdivMesh := m_isSubdivMesh g;
     m_subdivisionScheme := m_subdivisionScheme g;
     m_interpolateBoundary := m_interpolateBoundary g;
     m_faceVaryingLinearInterpolation := m_faceVaryingLinearInterpolation g;
     m_propagateCorner := m_propagateCorner g |}.

Definition set_faceCounts `{Arith} (v : list Z) (g : GeoData) : GeoData :=
  {| m_vertexIndices := m_vertexIndices g; m_faceCounts := v;
     m_faceSelectionIndices := m_faceSelectionIndices g;
     m_vertices := m_vertices g; m_normalIndices := m_normalIndices g;
     m_normals := m_normals g; m_uvIndices := m_uvIndices g;
     m_uvs := m_uvs g; m_creaseIndices := m_creaseIndices g;
     m_creaseLengths := m_creaseLengths g;
     m_creaseSharpness := m_creaseSharpness g;
     m_cornerIndices := m_cornerIndices g;
     m_cornerSharpness := m_cornerSharpness g;
     m_holeIndices := m_holeIndices g; m_isSubdivMesh := m_isSubdivMesh g;
     m_subdivisionScheme := m_subdivisionScheme g;
     m_interpolateBoundary := m_interpolateBoundary g;
     m_faceVaryingLinearInterpolation := m_faceVaryingLinearInterpolation g;
     m_propagateCorner := m_propagateCorner g |}.

Definition set_faceSelectionIndices `{Arith} (v : list Z) (g : GeoData) : GeoData :=
  {| m_vertexIndices := m_vertexIndices g; m_faceCounts := m_faceCounts g;
     m_faceSelectionIndices := v; m_vertices := m_vertices g;
     m_normalIndices := m_normalIndices g; m_normals := m_normals g;
     m_uvIndices := m_uvIndices g; m_uvs := m_uvs g;
     m_creaseIndices := m_creaseIndices g;
     m_creaseLengths := m_creaseLengths g;
     m_creaseSharpness := m_creaseSharpness g;
     m_cornerIndices := m_cornerIndices g;
     m_cornerSharpness := m_cornerSharpness g;
     m_holeIndices := m_holeIndices g; m_isSubdivMesh := m_isSubdivMesh g;
     m_subdivisionScheme := m_subdivisionScheme g;
     m_interpolateBoundary := m_interpolateBoundary g;
     m_faceVaryingLinearInterpolation := m_faceVaryingLinearInterpolation g;
     m_propagateCorner := m_propagateCorner g |}.

Definition set_vertices `{Arith} (v : FrameMap.t (list float)) (g : GeoData) : GeoData :=
  {| m_vertexIndices := m_vertexIndices g; m_faceCounts := m_faceCounts g;
     m_faceSelectionIndices := m_faceSelectionIndices g; m_vertices := v;
     m_normalIndices := m_normalIndices g; m_normals := m_normals g;
     m_uvIndices := m_uvIndices g; m_uvs := m_uvs g;
     m_creaseIndices := m_creaseIndices g;
     m_creaseLengths := m_creaseLengths g;
     m_creaseSharpness := m_creaseSharpness g;
     m_cornerIndices := m_cornerIndices g;
     m_cornerSharpness := m_cornerSharpness g;
     m_holeIndices := m_holeIndices g; m_isSubdivMesh := m_isSubdivMesh g;
     m_subdivisionScheme := m_subdivisionScheme g;
     m_interpolateBoundary := m_interpolateBoundary g;
     m_faceVaryingLinearInterpolation := m_faceVaryingLinearInterpolation g;
     m_propagateCorner := m_propagateCorner g |}.

Definition set_normalIndices `{Arith} (v : list Z) (g : GeoData) : GeoData :=
  {| m_vertexIndices := m_vertexIndices g; m_faceCounts := m_faceCounts g;
     m_faceSelectionIndices := m_faceSelectionIndices g;
     m_vertices := m_vertices g; m_normalIndices := v;
     m_normals := m_normals g; m_uvIndices := m_uvIndices g;
     m_uvs := m_uvs g; m_creaseIndices := m_creaseIndices g;
     m_creaseLengths := m_creaseLengths g;
     m_creaseSharpness := m_creaseSharpness g;
     m_cornerIndices := m_cornerIndices g;
     m_cornerSharpness := m_cornerSharpness g;
     m_holeIndices := m_holeIndices g; m_isSubdivMesh := m_isSubdivMesh g;
     m_subdivisionScheme := m_subdivisionScheme g;
     m_interpolateBoundary := m_interpolateBoundary g;
     m_faceVaryingLinearInterpolation := m_faceVaryingLinearInterpolation g;
     m_propagateCorner := m_propagateCorner g |}.

Definition set_normals `{Arith} (v : list float) (g : GeoData) : GeoData :=
  {| m_vertexIndices := m_vertexIndices g; m_faceCounts := m_faceCounts g;
     m_faceSelectionIndices := m_faceSelectionIndices g;
     m_vertices := m_vertices g; m_normalIndices := m_normalIndices g;
     m_normals := v; m_uvIndices := m_uvIndices g; m_uvs := m_uvs g;
     m_creaseIndices := m_creaseIndices g;
     m_creaseLengths := m_creaseLengths g;
     m_creaseSharpness := m_creaseSharpness g;
     m_cornerIndices := m_cornerIndices g;
     m_cornerSharpness := m_cornerSharpness g;
     m_holeIndices := m_holeIndices g; m_isSubdivMesh := m_isSubdivMesh g;
     m_subdivisionScheme := m_subdivisionScheme g;
     m_interpolateBoundary := m_interpolateBoundary g;
     m_faceVaryingLinearInterpolation := m_faceVaryingLinearInterpolation g;
     m_propagateCorner := m_propagateCorner g |}.

Definition set_uvIndices `{Arith} (v : list Z) (g : GeoData) : GeoData :=
  {| m_vertexIndices := m_vertexIndices g; m_faceCounts := m_faceCounts g;
     m_faceSelectionIndices := m_faceSelectionIndices g;
     m_vertices := m_vertices g; m_normalIndices := m_normalIndices g;
     m_normals := m_normals g; m_uvIndices := v; m_uvs := m_uvs g;
     m_creaseIndices := m_creaseIndices g;
     m_creaseLengths := m_creaseLengths g;
     m_creaseSharpness := m_creaseSharpness g;
     m_cornerIndices := m_cornerIndices g;
     m_cornerSharpness := m_cornerSharpness g;
     m_holeIndices := m_holeIndices g; m_isSubdivMesh := m_isSubdivMesh g;
     m_subdivisionScheme := m_subdivisionScheme g;
     m_interpolateBoundary := m_interpolateBoundary g;
     m_faceVaryingLinearInterpolation := m_faceVaryingLinearInterpolation g;
     m_propagateCorner := m_propagateCorner g |}.

Definition set_uvs `{Arith} (v : list float) (g : GeoData) : GeoData :=
  {| m_vertexIndices := m_vertexIndices g; m_faceCounts := m_faceCounts g;
     m_faceSelectionIndices := m_faceSelectionIndices g;
     m_vertices := m_vertices g; m_normalIndices := m_normalIndices g;
     m_normals := m_normals g; m_uvIndices := m_uvIndices g; m_uvs := v;
     m_creaseIndices := m_creaseIndices g;
     m_creaseLengths := m_creaseLengths g;
     m_creaseSharpness := m_creaseSharpness g;
     m_cornerIndices := m_cornerIndices g;
     m_cornerSharpness := m_cornerSharpness g;
     m_holeIndices := m_holeIndices g; m_isSubdivMesh := m_isSubdivMesh g;
     m_subdivisionScheme := m_subdivisionScheme g;
     m_interpolateBoundary := m_interpolateBoundary g;
     m_faceVaryingLinearInterpolation := m_faceVaryingLinearInterpolation g;
     m_propagateCorner := m_propagateCorner g |}.

Definition set_creaseIndices `{Arith} (v : list Z) (g : GeoData) : GeoData :=
  {| m_vertexIndices := m_vertexIndices g; m_faceCounts := m_faceCounts g;
     m_faceSelectionIndices := m_faceSelectionIndices g;
     m_vertices := m_vertices g; m_normalIndices := m_normalIndices g;
     m_normals := m_normals g; m_uvIndices := m_uvIndices g;
     m_uvs := m_uvs g; m_creaseIndices := v;
     m_creaseLengths := m_creaseLengths g;
     m_creaseSharpness := m_creaseSharpness g;
     m_cornerIndices := m_cornerIndices g;
     m_cornerSharpness := m_cornerSharpness g;
     m_holeIndices := m_holeIndices g; m_isSubdivMesh := m_isSubdivMesh g;
     m_subdivisionScheme := m_subdivisionScheme g;
     m_interpolateBoundary := m_interpolateBoundary g;
     m_faceVaryingLinearInterpolation := m_faceVaryingLinearInterpolation g;
     m_propagateCorner := m_propagateCorner g |}.

Definition set_creaseLengths `{Arith} (v : list Z) (g : GeoData) : GeoData :=
  {| m_vertexIndices := m_vertexIndices g; m_faceCounts := m_faceCounts g;
     m_faceSelectionIndices := m_faceSelectionIndices g;
     m_vertices := m_vertices g; m_normalIndices := m_normalIndices g;
     m_normals := m_normals g; m_uvIndices := m_uvIndices g;
     m_uvs := m_uvs g; m_creaseIndices := m_creaseIndices g;
     m_creaseLengths := v; m_creaseSharpness := m_creaseSharpness g;
     m_cornerIndices := m_cornerIndices g;
     m_cornerSharpness := m_cornerSharpness g;
     m_holeIndices := m_holeIndices g; m_isSubdivMesh := m_isSubdivMesh g;
     m_subdivisionScheme := m_subdivisionScheme g;
     m_interpolateBoundary := m_interpolateBoundary g;
     m_faceVaryingLinearInterpolation := m_faceVaryingLinearInterpolation g;
     m_propagateCorner := m_propagateCorner g |}.

Definition set_creaseSharpness `{Arith} (v : list float) (g : GeoData) : GeoData :=
  {| m_vertexIndices := m_vertexIndices g; m_faceCounts := m_faceCounts g;
     m_faceSelectionIndices := m_faceSelectionIndices g;
     m_vertices := m_vertices g; m_normalIndices := m_normalIndices g;
     m_normals := m_normals g; m_uvIndices := m_uvIndices g;
     m_uvs := m_uvs g; m_creaseIndices := m_creaseIndices g;
     m_creaseLengths := m_creaseLengths g; m_creaseSharpness := v;
     m_cornerIndices := m_cornerIndices g;
     m_cornerSharpness := m_cornerSharpness g;
     m_holeIndices := m_holeIndices g; m_isSubdivMesh := m_isSubdivMesh g;
     m_subdivisionScheme := m_subdivisionScheme g;
     m_interpolateBoundary := m_interpolateBoundary g;
     m_faceVaryingLinearInterpolation := m_faceVaryingLinearInterpolation g;
     m_propagateCorner := m_propagateCorner g |}.

Definition set_cornerIndices `{Arith} (v : list Z) (g : GeoData) : GeoData :=
  {| m_vertexIndices := m_vertexIndices g; m_faceCounts := m_faceCounts g;
     m_faceSelectionIndices := m_faceSelectionIndices g;
     m_vertices := m_vertices g; m_normalIndices := m_normalIndices g;
     m_normals := m_normals g; m_uvIndices := m_uvIndices g;
     m_uvs := m_uvs g; m_creaseIndices := m_creaseIndices g;
     m_creaseLengths := m_creaseLengths g;
     m_creaseSharpness := m_creaseSharpness g; m_cornerIndices := v;
     m_cornerSharpness := m_cornerSharpness g;
     m_holeIndices := m_holeIndices g; m_isSubdivMesh := m_isSubdivMesh g;
     m_subdivisionScheme := m_subdivisionScheme g;
     m_interpolateBoundary := m_interpolateBoundary g;
     m_faceVaryingLinearInterpolation := m_faceVaryingLinearInterpolation g;
     m_propagateCorner := m_propagateCorner g |}.

Definition set_cornerSharpness `{Arith} (v : list float) (g : GeoData) : GeoData :=
  {| m_vertexIndices := m_vertexIndices g; m_faceCounts := m_faceCounts g;
     m_faceSelectionIndices := m_faceSelectionIndices g;
     m_vertices := m_vertices g; m_normalIndices := m_normalIndices g;
     m_normals := m_normals g; m_uvIndices := m_uvIndices g;
     m_uvs := m_uvs g; m_creaseIndices := m_creaseIndices g;
     m_creaseLengths := m_creaseLengths g;
     m_creaseSharpness := m_creaseSharpness g;
     m_cornerIndices := m_cornerIndices g; m_cornerSharpness := v;
     m_holeIndices := m_holeIndices g; m_isSubdivMesh := m_isSubdivMesh g;
     m_subdivisionScheme := m_subdivisionScheme g;
     m_interpolateBoundary := m_interpolateBoundary g;
     m_faceVaryingLinearInterpolation := m_faceVaryingLinearInterpolation g;
     m_propagateCorner := m_propagateCorner g |}.

Definition set_holeIndices `{Arith} (v : list Z) (g : GeoData) : GeoData :=
  {| m_vertexIndices := m_vertexIndices g; m_faceCounts := m_faceCounts g;
     m_faceSelectionIndices := m_faceSelectionIndices g;
     m_vertices := m_vertices g; m_normalIndices := m_normalIndices g;
     m_normals := m_normals g; m_uvIndices := m_uvIndices g;
     m_uvs := m_uvs g; m_creaseIndices := m_creaseIndices g;
     m_creaseLengths := m_creaseLengths g;
     m_creaseSharpness := m_creaseSharpness g;
     m_cornerIndices := m_cornerIndices g;
     m_cornerSharpness := m_cornerSharpness g; m_holeIndices := v;
     m_isSubdivMesh := m_isSubdivMesh g;
     m_subdivisionScheme := m_subdivisionScheme g;
     m_interpolateBoundary := m_interpolateBoundary g;
     m_faceVaryingLinearInterpolation := m_faceVaryingLinearInterpolation g;
     m_propagateCorner := m_propagateCorner g |}.

Definition set_isSubdivMesh `{Arith} (v : bool) (g : GeoData) : GeoData :=
  {| m_vertexIndices := m_vertexIndices g; m_faceCounts := m_faceCounts g;
     m_faceSelectionIndices := m_faceSelectionIndices g;
     m_vertices := m_vertices g; m_normalIndices := m_normalIndices g;
     m_normals := m_normals g; m_uvIndices := m_uvIndices g;
     m_uvs := m_uvs g; m_creaseIndices := m_creaseIndices g;
     m_creaseLengths := m_creaseLengths g;
     m_creaseSharpness := m_creaseSharpness g;
     m_cornerIndices := m_cornerIndices g;
     m_cornerSharpness := m_cornerSharpness g;
     m_holeIndices := m_holeIndices g; m_isSubdivMesh := v;
     m_subdivisionScheme := m_subdivisionScheme g;
     m_interpolateBoundary := m_interpolateBoundary g;
     m_faceVaryingLinearInterpolation := m_faceVaryingLinearInterpolation g;
     m_propagateCorner := m_propagateCorner g |}.

Definition set_subdivisionScheme `{Arith} (v : string) (g : GeoData) : GeoData :=
  {| m_vertexIndices := m_vertexIndices g; m_faceCounts := m_faceCounts g;
     m_faceSelectionIndices := m_faceSelectionIndices g;
     m_vertices := m_vertices g; m_normalIndices := m_normalIndices g;
     m_normals := m_normals g; m_uvIndices := m_uvIndices g;
     m_uvs := m_uvs g; m_creaseIndices := m_creaseIndices g;
     m_creaseLengths := m_creaseLengths g;
     m_creaseSharpness := m_creaseSharpness g;
     m_cornerIndices := m_cornerIndices g;
     m_cornerSharpness := m_cornerSharpness g;
     m_holeIndices := m_holeIndices g; m_isSubdivMesh := m_isSubdivMesh g;
     m_subdivisionScheme := v;
     m_interpolateBoundary := m_interpolateBoundary g;
     m_faceVaryingLinearInterpolation := m_faceVaryingLinearInterpolation g;
     m_propagateCorner := m_propagateCorner g |}.

Definition set_interpolateBoundary `{Arith} (v : Z) (g : GeoData) : GeoData :=
  {| m_vertexIndices := m_vertexIndices g; m_faceCounts := m_faceCounts g;
     m_faceSelectionIndices := m_faceSelectionIndices g;
     m_vertices := m_vertices g; m_normalIndices := m_normalIndices g;
     m_normals := m_normals g; m_uvIndices := m_uvIndices g;
     m_uvs := m_uvs g; m_creaseIndices := m_creaseIndices g;
     m_creaseLengths := m_creaseLengths g;
     m_creaseSharpness := m_creaseSharpness g;
     m_cornerIndices := m_cornerIndices g;
     m_cornerSharpness := m_cornerSharpness g;
     m_holeIndices := m_holeIndices g; m_isSubdivMesh := m_isSubdivMesh g;
     m_subdivisionScheme := m_subdivisionScheme g;
     m_interpolateBoundary := v;
     m_faceVaryingLinearInterpolation := m_faceVaryingLinearInterpolation g;
     m_propagateCorner := m_propagateCorner g |}.

Definition set_faceVaryingLinearInterpolation `{Arith} (v : Z) (g : GeoData) : GeoData :=
  {| m_vertexIndices := m_vertexIndices g; m_faceCounts := m_faceCounts g;
     m_faceSelectionIndices := m_faceSelectionIndices g;
     m_vertices := m_vertices g; m_normalIndices := m_normalIndices g;
     m_normals := m_normals g; m_uvIndices := m_uvIndices g;
     m_uvs := m_uvs g; m_creaseIndices := m_creaseIndices g;
     m_creaseLengths := m_creaseLengths g;
     m_creaseSharpness := m_creaseSharpness g;
     m_cornerIndices := m_cornerIndices g;
     m_cornerSharpness := m_cornerSharpness g;
     m_holeIndices := m_holeIndices g; m_isSubdivMesh := m_isSubdivMesh g;
     m_subdivisionScheme := m_subdivisionScheme g;
     m_interpolateBoundary := m_interpolateBoundary g;
     m_faceVaryingLinearInterpolation := v;
     m_propagateCorner := m_propagateCorner g |}.

Definition set_propagateCorner `{Arith} (v : Z) (g : GeoData) : GeoData :=
  {| m_vertexIndices := m_vertexIndices g; m_faceCounts := m_faceCounts g;
     m_faceSelectionIndices := m_faceSelectionIndices g;
     m_vertices := m_vertices g; m_normalIndices := m_normalIndices g;
     m_normals := m_normals g; m_uvIndices := m_uvIndices g;
     m_uvs := m_uvs g; m_creaseIndices := m_creaseIndices g;
     m_creaseLengths := m_creaseLengths g;
     m_creaseSharpness := m_creaseSharpness g;
     m_cornerIndices := m_cornerIndices g;
     m_cornerSharpness := m_cornerSharpness g;
     m_holeIndices := m_holeIndices g; m_isSubdivMesh := m_isSubdivMesh g;
     m_subdivisionScheme := m_subdivisionScheme g;
     m_interpolateBoundary := m_interpolateBoundary g;
     m_faceVaryingLinearInterpolation := m_faceVaryingLinearInterpolation g;
     m_propagateCorner := v |}.

(** A snapshot before its constructor has run: every vector empty. *)
Definition fresh `{Arith} : GeoData :=
  {| m_vertexIndices := []; m_faceCounts := []; m_faceSelectionIndices := [];
     m_vertices := FrameMap.empty; m_normalIndices := []; m_normals := [];
     m_uvIndices := []; m_uvs := []; m_creaseIndices := [];
     m_creaseLengths := []; m_creaseSharpness := []; m_cornerIndices := [];
     m_cornerSharpness := []; m_holeIndices := []; m_isSubdivMesh := false;
     m_subdivisionScheme := ""; m_interpolateBoundary := 0;
     m_faceVaryingLinearInterpolation := 0; m_propagateCorner := 0 |}.

(** [GeoData::operator bool] *)
Definition operator_bool `{Arith} (g : GeoData) : bool :=
  (0 <? FrameMap.size (m_vertices g))%nat
  && match FrameMap.begin (m_vertices g) with
     | Some (_, second) => (0 <? List.length second)%nat
     | None => false
     end
  && (0 <? List.length (m_vertexIndices g))%nat.

(** What a function that returns a [float*] gives: the null pointer, a
    pointer to a float that has [rest] after it, or nothing defined. *)
Inductive FloatPointer `{Arith} :=
| NULL
| PointerTo (first : float) (rest : list float)
| Undefined.

(** [&(v[0])]: the first element of an empty vector does not exist. *)
Definition address_of_first `{Arith} (v : list float) : FloatPointer :=
  match v with
  | [] => Undefined
  | first :: rest => PointerTo first rest
  end.

(** [GeoData::GetVertices] *)
Definition GetVertices `{Arith} (g : GeoData) (frameSample : Z)
  : FloatPointer :=
  if (0 <? FrameMap.size (m_vertices g))%nat then
    match FrameMap.find frameSample (m_vertices g) with
    | Some v => address_of_first v
    | None =>
        match FrameMap.begin (m_vertices g) with
        | Some (_, second) => address_of_first second
        | None => Undefined
        end
    end
  else NULL.

(** [GeoData::Reset]: the scalar members are not touched. *)
Definition Reset `{Arith} (g : GeoData) : GeoData :=
  {| m_vertexIndices := []; m_faceCounts := []; m_faceSelectionIndices := [];
     m_vertices := FrameMap.empty; m_normalIndices := []; m_normals := [];
     m_uvIndices := []; m_uvs := []; m_creaseIndices := [];
     m_creaseLengths := []; m_creaseSharpness := []; m_cornerIndices := [];
     m_cornerSharpness := []; m_holeIndices := [];
     m_isSubdivMesh := m_isSubdivMesh g;
     m_subdivisionScheme := m_subdivisionScheme g;
     m_interpolateBoundary := m_interpolateBoundary g;
     m_faceVaryingLinearInterpolation := m_faceVaryingLinearInterpolation g;
     m_propagateCorner := m_propagateCorner g |}.

(** [GeoData::IsValidNode] *)
Definition IsValidNode `{Arith} (cfg : PathFilter.Lists) (prim : UsdPrim)
  : bool :=
  if negb (IsMesh prim) then false
  else PathFilter.TestPath cfg (GetPathText prim).

(* ================================================================== *)
(** ** The constructor's effects *)

(** What a running constructor acts on: the object under construction,
    the caller's log collector, and the host's trace, of which the source
    line of each call is kept. *)
Record State `{Arith} := {
  this : GeoData;
  log : list string;
  host_trace : list nat
}.

(** A step of the constructor; [None] is a [return;] that leaves it. *)
Definition Ctor `{Arith} (A : Type) : Type := State -> option A * State.

Definition ret `{Arith} {A} (a : A) : Ctor A := fun s => (Some a, s).

Definition bind `{Arith} {A B} (m : Ctor A) (k : A -> Ctor B) : Ctor B :=
  fun s =>
    match m s with
    | (Some a, s') => k a s'
    | (None, s') => (None, s')
    end.

Definition Return `{Arith} {A} : Ctor A := fun s => (None, s).

Definition update_this `{Arith} (f : GeoData -> GeoData) (s : State)
  : State :=
  {| this := f (this s); log := log s; host_trace := host_trace s |}.

Definition modify `{Arith} (f : GeoData -> GeoData) : Ctor unit :=
  fun s => (Some tt, update_this f s).

Definition get_this `{Arith} : Ctor GeoData := fun s => (Some (this s), s).

Definition log_push_back `{Arith} (msg : string) : Ctor unit :=
  fun s =>
    (Some tt,
     {| this := this s; log := log s ++ [msg];
        host_trace := host_trace s |}).

Definition trace `{Arith} (line : nat) : Ctor unit :=
  fun s =>
    (Some tt,
     {| this := this s; log := log s;
        host_trace := host_trace s ++ [line] |}).

(** [host.trace(...); log.push_back(msg); return;], the trace call being
    on source line [line]. *)
Definition log_and_return `{Arith} {A} (line : nat) (msg : string) : Ctor A :=
  fun s =>
    (None,
     {| this := this s; log := log s ++ [msg];
        host_trace := host_trace s ++ [line] |}).

Declare Scope ctor_scope.
Delimit Scope ctor_scope with ctor.
Notation "x <- m ;; k" := (bind m (fun x => k))
  (at level 61, m at next level, right associativity) : ctor_scope.
Notation "m ;; k" := (bind m (fun _ => k))
  (at level 61, right associativity) : ctor_scope.
Local Open Scope ctor_scope.

(* ================================================================== *)
(** ** [GeoData::GeoData] *)

Section Constructor.

Context `{Arith}.

Variable prim : UsdPrim.
Variable uvSet : string.
Variable frames : list Z.
Variable keepCentered : bool.
Variable model : UsdPrim.
(** The value of the setting [MARI_READ_FLOAT2_AS_UV]. *)
Variable ReadFloat2AsUV : bool.

(** Lines 77-81. *)
Definition Init : Ctor unit :=
  modify (fun g =>
    set_propagateCorner 0
      (set_faceVaryingLinearInterpolation 0
         (set_interpolateBoundary 0
            (set_subdivisionScheme "" (set_isSubdivMesh false g))))).

(** Lines 83-89. *)
Definition checkMesh : Ctor unit :=
  if negb (IsMesh prim) then
    log_and_return 86
      ("Invalid non-mesh prim " ++ GetPathText prim
       ++ " of type " ++ GetTypeNameText prim)%string
  else ret tt.

(** Line 91. *)
Definition isTopologyVarying : bool :=
  (1 <=? FaceVertexIndices_GetNumTimeSamples prim)%nat.

(** The time at which the topology is read. *)
Definition topologyTime : UsdTimeCode :=
  if isTopologyVarying then EarliestTime else Default.

(** Lines 98-108. *)
Definition readFaceVertexIndices : Ctor unit :=
  match FaceVertexIndices_Get prim topologyTime with
  | None =>
      log_and_return 103
        ("Failed getting faces on " ++ GetPathText prim)%string
  | Some vertsIndicesArray =>
      modify (set_vertexIndices vertsIndicesArray)
  end.

(** Lines 111-121. *)
Definition readFaceVertexCounts : Ctor unit :=
  match FaceVertexCounts_Get prim topologyTime with
  | None =>
      log_and_return 116
        ("Failed getting faces on " ++ GetPathText prim)%string
  | Some nvertsPerFaceArray =>
      modify (set_faceCounts nvertsPerFaceArray)
  end.

(** Lines 124-130. *)
Definition createFaceSelectionIndices : Ctor unit :=
  modify (fun g =>
    set_faceSelectionIndices
      (m_faceSelectionIndices g ++ iota (List.length (m_faceCounts g))) g).

Definition flatten2 (values : list (float * float)) : list float :=
  flat_map (fun v => [fst v; snd v]) values.

Definition flatten3 (values : list (float * float * float)) : list float :=
  flat_map (fun v => [fst (fst v); snd (fst v); snd v]) values.

(** Line 141-142. *)
Definition uvAccepted (uvPrimvar : UsdGeomPrimvar) : bool :=
  let typeName := GetTypeName uvPrimvar in
  let interpolation := GetInterpolation uvPrimvar in
  (String.eqb interpolation UsdGeomTokens.vertex
   || String.eqb interpolation UsdGeomTokens.faceVarying)
  && (is_TexCoord2fArray typeName
      || (ReadFloat2AsUV && is_Float2Array typeName)).

(** Lines 132-193. *)
Definition readUVs : Ctor unit :=
  if (0 <? String.length uvSet)%nat then
    match GetPrimvar prim uvSet with
    | Some uvPrimvar =>
        if uvAccepted uvPrimvar then
          match Get uvPrimvar EarliestTime with
          | Some values =>
              match GetIndices uvPrimvar topologyTime with
              | Some indices => modify (set_uvIndices indices)
              | None =>
                  modify (fun g =>
                    set_uvIndices
                      (m_uvIndices g
                       ++ iota (List.length (m_vertexIndices g))) g)
              end;;
              modify (set_uvs (flatten2 values))
          | None =>
              log_and_return 174
                ("discarding because could not read uvs on "
                 ++ GetPathText prim)%string
          end
        else
          log_and_return 181
            ("Discarding because Vertex or Facevarying interpolation is not defined for the "
             ++ uvSet ++ " uv set on " ++ GetPathText prim)%string
    | None =>
        log_and_return 189
          ("Discarding invalid uv set " ++ uvSet ++ " on "
           ++ GetPathText prim)%string
    end
  else ret tt.

(** Lines 196-215. *)
Definition readNormals : Ctor unit :=
  match Normals_Get prim topologyTime with
  | Some normalsVt =>
      modify (set_normals (flatten3 normalsVt));;
      modify (fun g =>
        set_normalIndices
          (m_normalIndices g ++ iota (List.length (m_vertexIndices g))) g)
  | None => ret tt
  end.

(** Lines 255-263: every point, three floats at a time, through
    [fullXform]. *)
Fixpoint xformPoints (fullXform : GfMatrix4d) (points : list float)
  : list float :=
  match points with
  | x :: y :: z :: rest =>
      let '(p0, p1, p2, _) :=
        vec_mul_mat (to_double x, to_double y, to_double z, one) fullXform in
      to_float p0 :: to_float p1 :: to_float p2 :: xformPoints fullXform rest
  | _ => points
  end.

(** Lines 244-252. *)
Definition frameXform (frameSample : Z) : GfMatrix4d :=
  let fullXform := GetLocalToWorldTransform prim frameSample in
  if keepCentered then
    let m := GetLocalToWorldTransform model frameSample in
    mat_mul fullXform (GetInverse m)
  else fullXform.

(** Lines 235-264: the vector stored for a frame whose points were read. *)
Definition bakePoints (frameSample : Z)
    (pointsVt : list (float * float * float)) : list float :=
  let points := flatten3 pointsVt in
  let fullXform := frameXform frameSample in
  if mat_neq fullXform IDENTITY then xformPoints fullXform points
  else points.

(** Modelled from the spec: the declaration of [m_vertices] is in
    GeoData.h, which is not among the sources; the spec gives the map
    integer frame numbers as keys, as [GetVertices(int)] looks them up,
    so that [m_vertices[frameSample]] converts the [unsigned int] to
    [int]. *)
Definition frameKey (frameSample : Z) : Z := to_int frameSample.

(** Lines 222-268, one iteration of the loop over [frames]. *)
Definition bakeFrame (frame : Z) : Ctor unit :=
  let frameSample := to_unsigned frame in
  match Points_Get prim (TimeSample frameSample) with
  | None =>
      log_and_return 230
        ("Failed getting faces on " ++ GetPathName prim)%string
  | Some pointsVt =>
      modify (fun g =>
        set_vertices
          (FrameMap.insert (frameKey frameSample)
             (bakePoints frameSample pointsVt) (m_vertices g)) g)
  end.

(** Lines 220-269. *)
Fixpoint bakeFrames (fs : list Z) : Ctor unit :=
  match fs with
  | [] => ret tt
  | frame :: rest => bakeFrame frame;; bakeFrames rest
  end.

Definition store_if {A} (set : A -> GeoData -> GeoData) (r : option A)
    (g : GeoData) : GeoData :=
  match r with Some a => set a g | None => g end.

(** Lines 336-370. *)
Definition readSubdivArrays (g : GeoData) : GeoData :=
  let g := store_if set_creaseIndices (CreaseIndices_Get prim) g in
  let g := store_if set_creaseLengths (CreaseLengths_Get prim) g in
  let g := store_if set_creaseSharpness (CreaseSharpnesses_Get prim) g in
  let g := store_if set_cornerIndices (CornerIndices_Get prim) g in
  let g := store_if set_cornerSharpness (CornerSharpnesses_Get prim) g in
  store_if set_holeIndices (HoleIndices_Get prim) g.

(** Lines 385-396. *)
Definition mapScheme (subdivisionScheme : TfToken) (g : GeoData) : GeoData :=
  if String.eqb subdivisionScheme UsdGeomTokens.catmullClark
  then set_subdivisionScheme "catmullClark" g
  else if String.eqb subdivisionScheme UsdGeomTokens.loop
  then set_subdivisionScheme "loop" g
  else if String.eqb subdivisionScheme UsdGeomTokens.bilinear
  then set_subdivisionScheme "bilinear" g
  else g.

(** Lines 398-413. *)
Definition mapInterpolateBoundary (g : GeoData) : GeoData :=
  match InterpolateBoundary_Get prim with
  | Some interpolateBoundary =>
      if String.eqb interpolateBoundary UsdGeomTokens.none
      then set_interpolateBoundary 0 g
      else if String.eqb interpolateBoundary UsdGeomTokens.edgeAndCorner
      then set_interpolateBoundary 1 g
      else if String.eqb interpolateBoundary UsdGeomTokens.edgeOnly
      then set_interpolateBoundary 2 g
      else g
  | None => g
  end.

(** Lines 415-442. *)
Definition mapFaceVaryingLinearInterpolation (g : GeoData) : GeoData :=
  match FaceVaryingLinearInterpolation_Get prim with
  | Some faceVaryingLinearInterpolation =>
      if String.eqb faceVaryingLinearInterpolation UsdGeomTokens.all
      then set_faceVaryingLinearInterpolation 0 g
      else if String.eqb faceVaryingLinearInterpolation UsdGeomTokens.none
      then set_faceVaryingLinearInterpolation 2 g
      else if String.eqb faceVaryingLinearInterpolation
                UsdGeomTokens.boundaries
      then set_faceVaryingLinearInterpolation 3 g
      else if String.eqb faceVaryingLinearInterpolation
                UsdGeomTokens.cornersPlus1
      then set_propagateCorner 0 (set_faceVaryingLinearInterpolation 1 g)
      else if String.eqb faceVaryingLinearInterpolation
                UsdGeomTokens.cornersPlus2
      then set_propagateCorner 1 (set_faceVaryingLinearInterpolation 1 g)
      else g
  | None => g
  end.

(** Lines 372-444. *)
Definition readSubdivisionScheme (g : GeoData) : GeoData :=
  let g := set_isSubdivMesh false g in
  match SubdivisionScheme_Get prim with
  | Some subdivisionScheme =>
      if String.eqb subdivisionScheme UsdGeomTokens.none
      then set_isSubdivMesh false g
      else
        let g := set_isSubdivMesh true g in
        let g := mapScheme subdivisionScheme g in
        let g := mapInterpolateBoundary g in
        mapFaceVaryingLinearInterpolation g
  | None => g
  end.

(** Lines 335-445. *)
Definition readSubdiv : Ctor unit :=
  modify (fun g => readSubdivisionScheme (readSubdivArrays g)).

(** Lines 83-215: what runs before the loop over the frames. *)
Definition readTopology : Ctor unit :=
  checkMesh;;
  trace 94;;
  trace 95;;
  readFaceVertexIndices;;
  readFaceVertexCounts;;
  createFaceSelectionIndices;;
  readUVs;;
  readNormals.

(** The body of the constructor. *)
Definition construct : Ctor unit :=
  Init;;
  readTopology;;
  bakeFrames frames;;
  readSubdiv.

End Constructor.

(** The state in which the constructor starts: a new object, the
    caller's [log], nothing traced yet. *)
Definition start `{Arith} (log0 : list string) : State :=
  {| this := fresh; log := log0; host_trace := [] |}.

(** [GeoData g(prim, uvSet, frames, keepCentered, model, host, log)]:
    the state in which the constructor leaves the new object, the
    caller's [log] and the host's trace. *)
Definition construct_new `{Arith} (prim : UsdPrim) (uvSet : string)
    (frames : list Z) (keepCentered : bool) (model : UsdPrim)
    (ReadFloat2AsUV : bool) (log0 : list string) : State :=
  snd (construct prim uvSet frames keepCentered model ReadFloat2AsUV
         (start log0)).

(** The object built. *)
Definition GeoData_new `{Arith} (prim : UsdPrim) (uvSet : string)
    (frames : list Z) (keepCentered : bool) (model : UsdPrim)
    (ReadFloat2AsUV : bool) (log0 : list string) : GeoData :=
  this (construct_new prim uvSet frames keepCentered model ReadFloat2AsUV
          log0).

(* ================================================================== *)
(** ** Notions used to state the properties *)

(** The sum of the entries of an [int] vector. *)
Definition sumZ (l : list Z) : Z := fold_right Z.add 0 l.

(** A step leaves the member [f] of the object as it was, whether it
    goes on or leaves the constructor. *)
Definition Keeps `{Arith} {X A} (f : GeoData -> X) (m : Ctor A) : Prop :=
  forall s, f (this (snd (m s))) = f (this s).

(** The members that hold geometry, and those that describe the
    subdivision surface. *)
Definition geometry `{Arith} (g : GeoData) :=
  (m_vertexIndices g, m_faceCounts g, m_faceSelectionIndices g,
   m_vertices g, m_normalIndices g, m_normals g, m_uvIndices g, m_uvs g).

Definition subdivision `{Arith} (g : GeoData) :=
  (m_isSubdivMesh g, m_subdivisionScheme g, m_interpolateBoundary g,
   m_faceVaryingLinearInterpolation g, m_propagateCorner g).

(** The vertex map after the frames [fs], all of them readable or not,
    have been stored in turn into [m]: a frame whose points cannot be
    read stores nothing. *)
Definition bakedEntries `{Arith} (prim : UsdPrim) (keepCentered : bool)
    (model : UsdPrim) (fs : list Z) (m : FrameMap.t (list float))
  : FrameMap.t (list float) :=
  fold_left
    (fun acc frame =>
       let frameSample := to_unsigned frame in
       match Points_Get prim (TimeSample frameSample) with
       | Some pointsVt =>
           FrameMap.insert (frameKey frameSample)
             (bakePoints prim keepCentered model frameSample pointsVt) acc
       | None => acc
       end)
    fs m.


(** The subdivision members as [Init] sets them. *)
Definition subdivDefault `{Arith} (g : GeoData) : Prop :=
  subdivision g = (false, "", 0, 0, 0).

(* ================================================================== *)
(** ** Scenes with integer coordinates *)

(** Exact arithmetic on integers, and the transforms that translate:
    a matrix is its translation row. *)
Module Scene.

Definition translate (p : Z * Z * Z * Z) (t : Z * Z * Z) : Z * Z * Z * Z :=
  let '(x, y, z, w) := p in
  let '(tx, ty, tz) := t in
  (x + w * tx, y + w * ty, z + w * tz, w).

Definition compose (a b : Z * Z * Z) : Z * Z * Z :=
  let '(ax, ay, az) := a in
  let '(bx, by_, bz) := b in
  (ax + bx, ay + by_, az + bz).

Definition opposite (a : Z * Z * Z) : Z * Z * Z :=
  let '(ax, ay, az) := a in (- ax, - ay, - az).

Definition differ (a b : Z * Z * Z) : bool :=
  let '(ax, ay, az) := a in
  let '(bx, by_, bz) := b in
  negb ((ax =? bx) && (ay =? by_) && (az =? bz)).

#[local] Instance integers : Arith := {|
  float := Z;
  double := Z;
  to_double := fun x => x;
  to_float := fun x => x;
  one := 1;
  GfMatrix4d := Z * Z * Z;
  IDENTITY := (0, 0, 0);
  mat_mul := compose;
  GetInverse := opposite;
  mat_neq := differ;
  vec_mul_mat := translate
|}.

(** A primvar of texture coordinates, given by its two reads. *)
Definition texCoords (interpolation : TfToken)
    (values : UsdTimeCode -> option (list (Z * Z)))
    (indices : UsdTimeCode -> option (list Z)) : UsdGeomPrimvar :=
  {| GetTypeName := TexCoord2fArray;
     GetInterpolation := interpolation;
     Get := values;
     GetIndices := indices |}.

(** A mesh prim at the origin carrying no crease, corner or hole. *)
Definition mesh (samples : nat)
    (indices counts : UsdTimeCode -> option (list Z))
    (primvars : TfToken -> option UsdGeomPrimvar)
    (points : UsdTimeCode -> option (list (Z * Z * Z)))
    (scheme boundary faceVarying : option TfToken) : UsdPrim :=
  {| GetPathText := "/World/geo/tri";
     GetPathName := "tri";
     GetTypeNameText := "Mesh";
     IsMesh := true;
     FaceVertexIndices_GetNumTimeSamples := samples;
     FaceVertexIndices_Get := indices;
     FaceVertexCounts_Get := counts;
     GetPrimvar := primvars;
     Normals_Get := fun _ => None;
     Points_Get := points;
     CreaseIndices_Get := None;
     CreaseLengths_Get := None;
     CreaseSharpnesses_Get := None;
     CornerIndices_Get := None;
     CornerSharpnesses_Get := None;
     HoleIndices_Get := None;
     SubdivisionScheme_Get := scheme;
     InterpolateBoundary_Get := boundary;
     FaceVaryingLinearInterpolation_Get := faceVarying;
     GetLocalToWorldTransform := fun _ => (0, 0, 0) |}.

Definition trianglePoints : list (Z * Z * Z) :=
  [(0, 0, 0); (1, 0, 0); (0, 1, 0)].

(** One triangle with a default-valued topology and points at every
    time. *)
Definition triangle : UsdPrim :=
  mesh 0 (fun _ => Some [0; 1; 2]) (fun _ => Some [3]) (fun _ => None)
    (fun _ => Some trianglePoints) None None None.

(** The triangle whose point array is empty at frame 1. *)
Definition lateTriangle : UsdPrim :=
  mesh 0 (fun _ => Some [0; 1; 2]) (fun _ => Some [3]) (fun _ => None)
    (fun t => match t with
              | TimeSample 1 => Some []
              | _ => Some trianglePoints
              end)
    None None None.

(** The triangle whose topology has one time sample and no default. *)
Definition sampledTriangle : UsdPrim :=
  mesh 1
    (fun t => match t with Default => None | _ => Some [0; 1; 2] end)
    (fun t => match t with Default => None | _ => Some [3] end)
    (fun _ => None) (fun _ => Some trianglePoints) None None None.

(** The triangle whose face counts announce four corners. *)
Definition miscountedTriangle : UsdPrim :=
  mesh 0 (fun _ => Some [0; 1; 2]) (fun _ => Some [4]) (fun _ => None)
    (fun _ => Some trianglePoints) None None None.

(** Texture coordinates with time samples and no default value, and
    without indices. *)
Definition sampledSt : UsdGeomPrimvar :=
  texCoords UsdGeomTokens.faceVarying
    (fun t => match t with
              | Default => None
              | _ => Some [(0, 0); (1, 0); (0, 1)]
              end)
    (fun _ => None).

(** The triangle with the primvar [st] above; its topology has a
    default value and no time sample. *)
Definition texturedTriangle : UsdPrim :=
  mesh 0 (fun _ => Some [0; 1; 2]) (fun _ => Some [3])
    (fun name => if String.eqb name "st" then Some sampledSt else None)
    (fun _ => Some trianglePoints) None None None.

(** Texture coordinates whose default value and whose time samples
    differ: two values indexed [0; 1; 1] by default, one value indexed
    [0; 0; 0] in the samples. *)
Definition retimedSt : UsdGeomPrimvar :=
  texCoords UsdGeomTokens.faceVarying
    (fun t => match t with
              | Default => Some [(0, 0); (1, 1)]
              | _ => Some [(5, 5)]
              end)
    (fun t => match t with
              | Default => Some [0; 1; 1]
              | _ => Some [0; 0; 0]
              end).

(** The triangle with the primvar [st] above and a static topology. *)
Definition retimedTriangle : UsdPrim :=
  mesh 0 (fun _ => Some [0; 1; 2]) (fun _ => Some [3])
    (fun name => if String.eqb name "st" then Some retimedSt else None)
    (fun _ => Some trianglePoints) None None None.

(** The triangle declared not to be a subdivision surface though it
    carries the two interpolation attributes. *)
Definition polygonalTriangle : UsdPrim :=
  mesh 0 (fun _ => Some [0; 1; 2]) (fun _ => Some [3]) (fun _ => None)
    (fun _ => Some trianglePoints)
    (Some UsdGeomTokens.none) (Some UsdGeomTokens.edgeOnly)
    (Some UsdGeomTokens.boundaries).

(** The triangle whose points cannot be read at frame 2. *)
Definition interruptedTriangle : UsdPrim :=
  mesh 0 (fun _ => Some [0; 1; 2]) (fun _ => Some [3]) (fun _ => None)
    (fun t => match t with
              | TimeSample 2 => None
              | _ => Some trianglePoints
              end)
    None None None.

(** A snapshot whose first frame is empty and whose second is not. *)
Definition emptyFirstFrame : GeoData :=
  set_vertices [(1, []); (2, [0; 0; 0])] (set_vertexIndices [0] fresh).

Definition unsetEnv : PathFilter.Env := fun _ => None.

(** An environment in which the ignore variable is set to the empty
    string and the require variable is not set. *)
Definition emptyIgnoreEnv : PathFilter.Env :=
  fun name =>
    if String.eqb name PathFilter._ignoreGeomPathSubstringEnvVar
    then Some "" else None.

Definition someLists : PathFilter.Lists :=
  {| PathFilter._requireGeomPathSubstring := ["geo"];
     PathFilter._ignoreGeomPathSubstring := ["proxy"; "guide"] |}.

End Scene.

(* ================================================================== *)
(** ** [GeoData::GetUvSets] *)

(** [UVSet], a [std::map<std::string, int>]: an association list kept
    in the order of the keys. *)
Module UVSet.

Definition t := list (string * Z).

Definition empty : t := [].

Fixpoint find (k : string) (m : t) : option Z :=
  match m with
  | [] => None
  | (k', v) :: r => if String.eqb k k' then Some v else find k r
  end.

(** [m[k] = v] *)
Fixpoint insert (k : string) (v : Z) (m : t) : t :=
  match m with
  | [] => [(k, v)]
  | (k', v') :: r =>
      if String.ltb k k' then (k, v) :: m
      else if String.eqb k k' then (k, v) :: r
      else (k', v') :: insert k v r
  end.

Definition keys (m : t) : list string := map fst m.

End UVSet.

Definition is_FloatArray (t : SdfValueTypeName) : bool :=
  match t with FloatArray => true | _ => false end.

(** The prim as [GetUvSets] reads it: whether it is a [UsdGeomGprim],
    and its primvars, each with the name of its declaration. *)
Record UsdGeomGprim `{Arith} := {
  IsGprim : bool;
  GetPrimvars : list (TfToken * UsdGeomPrimvar)
}.

(** [s.substr(0, n)] *)
Definition substr_to (n : nat) (s : string) : string :=
  String.substring 0 n s.

(** [s.substr(pos)], for [pos] no greater than the length of [s]. *)
Definition substr_from (pos : nat) (s : string) : string :=
  String.substring pos (String.length s - pos) s.

Section UvSets.

Context `{Arith}.

(** The value of the setting [MARI_READ_FLOAT2_AS_UV]. *)
Variable ReadFloat2AsUV : bool.

(** Lines 496-508: the name under which a primvar of vertex or
    face-varying interpolation is counted, empty when it is not. *)
Definition mapName (name : TfToken) (typeName : SdfValueTypeName) : string :=
  let prefix := substr_to 2 name in
  if (String.eqb prefix "v_" || String.eqb prefix "u_")
     && is_FloatArray typeName
  then substr_from 2 name
  else if is_TexCoord2fArray typeName
          || (ReadFloat2AsUV && is_Float2Array typeName)
  then name
  else "".

(** Lines 486-516, one iteration of the loop over the primvars. *)
Definition countPrimvar (retval : UVSet.t)
    (primvar : TfToken * UsdGeomPrimvar) : UVSet.t :=
  let name := fst primvar in
  let typeName := GetTypeName (snd primvar) in
  let interpolation := GetInterpolation (snd primvar) in
  if String.eqb interpolation UsdGeomTokens.vertex
     || String.eqb interpolation UsdGeomTokens.faceVarying
  then
    let mapName := mapName name typeName in
    if (0 <? String.length mapName)%nat then
      match UVSet.find mapName retval with
      | None => UVSet.insert mapName 1 retval
      | Some n => UVSet.insert mapName (n + 1) retval
      end
    else retval
  else retval.

(** Lines 477-518; the counts stay far below [2^31]. *)
Definition GetUvSets (prim : UsdGeomGprim) (retval : UVSet.t) : UVSet.t :=
  if negb (IsGprim prim) then retval
  else fold_left countPrimvar (GetPrimvars prim) retval.

(** The name under which [GetUvSets] counts a primvar, empty when it
    does not count it. *)
Definition countedName (primvar : TfToken * UsdGeomPrimvar) : string :=
  if String.eqb (GetInterpolation (snd primvar)) UsdGeomTokens.vertex
     || String.eqb (GetInterpolation (snd primvar)) UsdGeomTokens.faceVarying
  then mapName (fst primvar) (GetTypeName (snd primvar))
  else "".

(** How many of the primvars are counted under the name [n]. *)
Definition sightings (n : string)
    (primvars : list (TfToken * UsdGeomPrimvar)) : Z :=
  Z.of_nat
    (List.length
       (filter (fun primvar => String.eqb (countedName primvar) n)
          primvars)).

End UvSets.

(* ================================================================== *)
(** ** More notions used to state the properties *)

(** The points of every frame of [fs] can be read. *)
Definition Readable `{Arith} (prim : UsdPrim) (fs : list Z) : Prop :=
  forall x, In x fs -> Points_Get prim (TimeSample (to_unsigned x)) <> None.

Definition readable `{Arith} (prim : UsdPrim) (x : Z) : bool :=
  match Points_Get prim (TimeSample (to_unsigned x)) with
  | Some _ => true
  | None => false
  end.

(** The UV set requested, if one is, is a primvar of the prim that the
    constructor accepts and whose values it can read. *)
Definition UvSetReadable `{Arith} (prim : UsdPrim) (uvSet : string)
    (ReadFloat2AsUV : bool) : Prop :=
  uvSet = "" \/
  exists uvPrimvar,
    GetPrimvar prim uvSet = Some uvPrimvar
    /\ uvAccepted ReadFloat2AsUV uvPrimvar = true
    /\ Get uvPrimvar EarliestTime <> None.

(** The prim is a mesh whose two topology arrays and whose UV set can
    be read. *)
Definition TopologyReadable `{Arith} (prim : UsdPrim) (uvSet : string)
    (ReadFloat2AsUV : bool) : Prop :=
  IsMesh prim = true
  /\ FaceVertexIndices_Get prim (topologyTime prim) <> None
  /\ FaceVertexCounts_Get prim (topologyTime prim) <> None
  /\ UvSetReadable prim uvSet ReadFloat2AsUV.

(** A step that goes on leaves the log collector as it was, and a step
    that leaves the constructor adds one message to it. *)
Definition LogsOnReturn `{Arith} {A} (m : Ctor A) : Prop :=
  forall s,
    match m s with
    | (Some _, s') => log s' = log s
    | (None, s') => exists msg, log s' = log s ++ [msg]
    end.

(** The count of a name after [c] more primvars were counted under it. *)
Definition counted (before : option Z) (c : Z) : option Z :=
  match before with
  | Some n => Some (n + c)
  | None => if c =? 0 then None else Some c
  end.

(** The array read, or no element when the read failed. *)
Definition orEmpty {A} (r : option (list A)) : list A :=
  match r with Some a => a | None => [] end.

(** The crease, corner and hole members. *)
Definition creases `{Arith} (g : GeoData) :=
  (m_creaseIndices g, m_creaseLengths g, m_creaseSharpness g,
   m_cornerIndices g, m_cornerSharpness g, m_holeIndices g).

(** More scenes with integer coordinates. *)
Module Samples.

Import Scene.

#[local] Existing Instance integers.

(** Texture coordinates with indices, the same at every time. *)
Definition indexedSt : UsdGeomPrimvar :=
  texCoords UsdGeomTokens.faceVarying
    (fun _ => Some [(0, 0); (1, 1)])
    (fun _ => Some [0; 1; 1]).

(** The triangle with the indexed primvar [st]. *)
Definition indexedTriangle : UsdPrim :=
  mesh 0 (fun _ => Some [0; 1; 2]) (fun _ => Some [3])
    (fun name => if String.eqb name "st" then Some indexedSt else None)
    (fun _ => Some trianglePoints) None None None.

(** A prim that is not a mesh. *)
Definition camera : UsdPrim :=
  {| GetPathText := "/World/cam";
     GetPathName := "cam";
     GetTypeNameText := "Camera";
     IsMesh := false;
     FaceVertexIndices_GetNumTimeSamples := 0;
     FaceVertexIndices_Get := fun _ => None;
     FaceVertexCounts_Get := fun _ => None;
     GetPrimvar := fun _ => None;
     Normals_Get := fun _ => None;
     Points_Get := fun _ => None;
     CreaseIndices_Get := None;
     CreaseLengths_Get := None;
     CreaseSharpnesses_Get := None;
     CornerIndices_Get := None;
     CornerSharpnesses_Get := None;
     HoleIndices_Get := None;
     SubdivisionScheme_Get := None;
     InterpolateBoundary_Get := None;
     FaceVaryingLinearInterpolation_Get := None;
     GetLocalToWorldTransform := fun _ => (0, 0, 0) |}.

(** The triangle as a Catmull-Clark surface with one crease, moved by
    (1, 2, 3), with normals. *)
Definition creasedTriangle : UsdPrim :=
  {| GetPathText := "/World/geo/tri";
     GetPathName := "tri";
     GetTypeNameText := "Mesh";
     IsMesh := true;
     FaceVertexIndices_GetNumTimeSamples := 0;
     FaceVertexIndices_Get := fun _ => Some [0; 1; 2];
     FaceVertexCounts_Get := fun _ => Some [3];
     GetPrimvar := fun _ => None;
     Normals_Get := fun _ => Some [(0, 0, 1); (0, 0, 1); (0, 0, 1)];
     Points_Get := fun _ => Some trianglePoints;
     CreaseIndices_Get := Some [0; 1];
     CreaseLengths_Get := Some [2];
     CreaseSharpnesses_Get := Some [4];
     CornerIndices_Get := None;
     CornerSharpnesses_Get := None;
     HoleIndices_Get := None;
     SubdivisionScheme_Get := Some UsdGeomTokens.catmullClark;
     InterpolateBoundary_Get := Some UsdGeomTokens.edgeOnly;
     FaceVaryingLinearInterpolation_Get := Some UsdGeomTokens.cornersPlus2;
     GetLocalToWorldTransform := fun _ => (1, 2, 3) |}.

Definition floatArray : UsdGeomPrimvar :=
  {| GetTypeName := FloatArray;
     GetInterpolation := UsdGeomTokens.vertex;
     Get := fun _ => None;
     GetIndices := fun _ => None |}.

(** A gprim with the legacy pair [u_map1], [v_map1] and the texture
    coordinates [st]. *)
Definition legacyGprim : UsdGeomGprim :=
  {| IsGprim := true;
     GetPrimvars :=
       [("u_map1", floatArray); ("v_map1", floatArray);
        ("st", indexedSt)] |}.

Definition geoOnly : PathFilter.Lists :=
  {| PathFilter._requireGeomPathSubstring := ["geo"; "char"];
     PathFilter._ignoreGeomPathSubstring := ["proxy"] |}.

Definition geoOnlyShuffled : PathFilter.Lists :=
  {| PathFilter._requireGeomPathSubstring := ["char"; "geo"; "char"];
     PathFilter._ignoreGeomPathSubstring := ["proxy"; "proxy"] |}.

Definition geoNoGuides : PathFilter.Lists :=
  {| PathFilter._requireGeomPathSubstring := ["geo"; "char"];
     PathFilter._ignoreGeomPathSubstring := ["proxy"; "guide"] |}.

(** Lists whose ignore side holds an empty pattern. *)
Definition blankIgnore : PathFilter.Lists :=
  {| PathFilter._requireGeomPathSubstring := [];
     PathFilter._ignoreGeomPathSubstring := ["proxy"; ""] |}.

End Samples.

(* ================================================================== *)
(** * Properties *)

(** ** Substrings *)

Module StrFacts.

Lemma prefix_iff (pat s : string) :
  String.prefix pat s = true <-> exists post, s = (pat ++ post)%string.
Proof.
  revert s; induction pat as [|a pat IH]; intros s.
  - split; [intros _; exists s; reflexivity | destruct s; reflexivity].
  - destruct s as [|b s]; simpl.
    + split; [discriminate | intros [post Hp]; discriminate Hp].
    + destruct (ascii_dec a b) as [->|Hab].
      * rewrite IH. split; intros [post Hp]; exists post.
        -- now rewrite Hp.
        -- now injection Hp.
      * split; [discriminate | intros [post Hp]].
        injection Hp as Hb _. congruence.
Qed.

Lemma find_cons (pat : string) (c : ascii) (s : string) :
  Str.find pat (String c s) =
  if String.prefix pat (String c s) then Some 0%nat
  else option_map S (Str.find pat s).
Proof. reflexivity. Qed.

Lemma find_some_substring (pat s : string) (n : nat) :
  Str.find pat s = Some n -> Str.Substring pat s.
Proof.
  revert n; induction s as [|c s IH]; intros n.
  - destruct pat; [intros _ | discriminate].
    exists EmptyString, EmptyString. reflexivity.
  - rewrite find_cons.
    destruct (String.prefix pat (String c s)) eqn:Hp.
    + intros _. apply prefix_iff in Hp as [post Hp].
      exists EmptyString, post. exact Hp.
    + destruct (Str.find pat s) as [m|] eqn:Hf; [|discriminate].
      intros _. destruct (IH m eq_refl) as (pre & post & Hs).
      exists (String c pre), post. simpl. now rewrite Hs.
Qed.

Lemma substring_find (pat pre post : string) :
  Str.find pat (pre ++ pat ++ post)%string <> None.
Proof.
  induction pre as [|c pre IH].
  - assert (Hp : String.prefix pat (pat ++ post)%string = true)
      by (apply prefix_iff; now exists post).
    change ("" ++ pat ++ post)%string with (pat ++ post)%string.
    destruct (pat ++ post)%string as [|c s].
    + destruct pat; [discriminate | discriminate Hp].
    + rewrite find_cons, Hp. discriminate.
  - change (String c pre ++ pat ++ post)%string
      with (String c (pre ++ pat ++ post)%string).
    rewrite find_cons.
    destruct (String.prefix pat (String c (pre ++ pat ++ post))).
    + discriminate.
    + destruct (Str.find pat (pre ++ pat ++ post)%string);
        [discriminate | contradiction].
Qed.

(** [path.find(pat) != npos] decides "[pat] is a substring of [path]". *)
Lemma contains_iff (s pat : string) :
  Str.contains s pat = true <-> Str.Substring pat s.
Proof.
  unfold Str.contains. split.
  - destruct (Str.find pat s) as [n|] eqn:Hf; [|discriminate].
    intros _. eapply find_some_substring; eauto.
  - intros (pre & post & ->).
    pose proof (substring_find pat pre post) as Hn.
    destruct (Str.find pat (pre ++ pat ++ post)%string); congruence.
Qed.

Lemma contains_false_iff (s pat : string) :
  Str.contains s pat = false <-> ~ Str.Substring pat s.
Proof.
  rewrite <- contains_iff. destruct (Str.contains s pat); split; congruence.
Qed.

End StrFacts.

(** ** The path filter *)

Module PathFilterFacts.

Import PathFilter.

(** After the first loop the flag is set exactly when the list were
    empty on entry with the flag set, or one of its entries occurs. *)
Lemma requireLoop_true (path : string) (l : list string) (found : bool) :
  requireLoop path l found = true <->
  (l = [] /\ found = true) \/ exists r, In r l /\ Str.Substring r path.
Proof.
  revert found; induction l as [|i rest IH]; intros found; simpl.
  - split; [intros ->; now left | intros [[_ ?]|(r & [] & _)]; assumption].
  - destruct (Str.contains path i) eqn:Hc.
    + split; [intros _; right | reflexivity].
      exists i. split; [now left | now apply StrFacts.contains_iff].
    + rewrite IH. apply StrFacts.contains_false_iff in Hc. split.
      * intros [[_ ?]|(r & Hin & Hs)]; [discriminate|].
        right. exists r. split; [now right | assumption].
      * intros [[? _]|(r & [->|Hin] & Hs)]; [discriminate|contradiction|].
        right. now exists r.
Qed.

Lemma ignoreLoop_true (path : string) (l : list string) :
  ignoreLoop path l = true <-> forall i, In i l -> ~ Str.Substring i path.
Proof.
  induction l as [|i rest IH]; simpl.
  - split; [intros _ ? [] | reflexivity].
  - destruct (Str.contains path i) eqn:Hc.
    + apply StrFacts.contains_iff in Hc. split; [discriminate|].
      intros Hall. exfalso. apply (Hall i); [now left | assumption].
    + apply StrFacts.contains_false_iff in Hc. rewrite IH. split.
      * intros Hall j [->|Hj]; [assumption | now apply Hall].
      * intros Hall j Hj. apply Hall. now right.
Qed.

(** [TestPath] accepts exactly the paths that pass both stages. *)
Lemma TestPath_true (cfg : Lists) (path : string) :
  TestPath cfg path = true <->
  (_requireGeomPathSubstring cfg = [] \/
   exists r, In r (_requireGeomPathSubstring cfg) /\ Str.Substring r path)
  /\ forall i, In i (_ignoreGeomPathSubstring cfg) -> ~ Str.Substring i path.
Proof.
  unfold TestPath.
  destruct (requireLoop path (_requireGeomPathSubstring cfg) true) eqn:Hr;
    simpl.
  - rewrite ignoreLoop_true. apply requireLoop_true in Hr.
    split; [intros Hi; split; [|exact Hi] | intros [_ Hi]; exact Hi].
    destruct Hr as [[-> _]|Hr]; [now left | now right].
  - split; [discriminate | intros [Hreq _]].
    assert (Ht : requireLoop path (_requireGeomPathSubstring cfg) true = true)
      by (apply requireLoop_true; destruct Hreq; [left | right]; auto).
    congruence.
Qed.

(** C2. For every path and every pair of lists, [TestPath] returns false
    when the require-list is non-empty and none of its entries is a
    substring of the path; it returns false when some ignore-list entry
    is a substring of the path; and it returns true when the require-list
    is empty or one of its entries is a substring of the path, and no
    ignore-list entry is a substring of the path. *)
Theorem TestPath_accept (cfg : Lists) (path : string) :
  ((_requireGeomPathSubstring cfg <> [] /\
    forall r, In r (_requireGeomPathSubstring cfg) ->
              ~ Str.Substring r path) ->
   TestPath cfg path = false)
  /\ ((exists i, In i (_ignoreGeomPathSubstring cfg) /\
                 Str.Substring i path) ->
      TestPath cfg path = false)
  /\ (((_requireGeomPathSubstring cfg = [] \/
        exists r, In r (_requireGeomPathSubstring cfg) /\
                  Str.Substring r path) /\
       forall i, In i (_ignoreGeomPathSubstring cfg) ->
                 ~ Str.Substring i path) ->
      TestPath cfg path = true).
Proof.
  pose proof (TestPath_true cfg path) as Ht.
  repeat split.
  - intros [Hne Hnone].
    destruct (TestPath cfg path); [|reflexivity].
    destruct Ht as [Ht _]. destruct (Ht eq_refl) as [[He|(r & Hin & Hs)] _].
    + contradiction.
    + exfalso. exact (Hnone r Hin Hs).
  - intros (i & Hin & Hs).
    destruct (TestPath cfg path); [|reflexivity].
    destruct Ht as [Ht _]. destruct (Ht eq_refl) as [_ Hi].
    exfalso. exact (Hi i Hin Hs).
  - intros Hacc. now apply Ht.
Qed.

End PathFilterFacts.

(** ** The frame map *)

Module FrameMapFacts.

Import FrameMap.

Section Facts.

Context {V : Type}.
Implicit Types (m : t V) (k lo : Z) (v : V).

Lemma wf_from_insert lo k v m :
  lo < k -> wf_from lo m -> wf_from lo (insert k v m).
Proof.
  revert lo; induction m as [|[k' v'] r IH]; intros lo Hlo Hwf; simpl.
  - split; [assumption | exact I].
  - destruct Hwf as [Hk' Hr].
    destruct (k <? k') eqn:Hlt; [apply Z.ltb_lt in Hlt|apply Z.ltb_ge in Hlt].
    + simpl. repeat split; assumption.
    + destruct (k =? k') eqn:Heq.
      * apply Z.eqb_eq in Heq. subst k'. simpl. split; assumption.
      * apply Z.eqb_neq in Heq. simpl. split; [assumption|].
        apply IH; [lia | assumption].
Qed.

Lemma wf_insert k v m : wf m -> wf (insert k v m).
Proof.
  destruct m as [|[k' v'] r]; simpl; [trivial|]. intros Hwf.
  destruct (k <? k') eqn:Hlt; [apply Z.ltb_lt in Hlt|apply Z.ltb_ge in Hlt].
  - simpl. split; assumption.
  - destruct (k =? k') eqn:Heq.
    + apply Z.eqb_eq in Heq. subst k'. exact Hwf.
    + apply Z.eqb_neq in Heq. simpl. apply wf_from_insert; [lia|assumption].
Qed.

Lemma find_insert k v m k0 :
  find k0 (insert k v m) = if k0 =? k then Some v else find k0 m.
Proof.
  induction m as [|[k' v'] r IH]; simpl; [reflexivity|].
  destruct (k <? k') eqn:Hlt; [reflexivity|].
  destruct (k =? k') eqn:Heq.
  - apply Z.eqb_eq in Heq. subst k'. simpl.
    destruct (k0 =? k); reflexivity.
  - apply Z.eqb_neq in Heq. simpl. rewrite IH.
    destruct (k0 =? k') eqn:H1, (k0 =? k) eqn:H2; try reflexivity.
    apply Z.eqb_eq in H1, H2. congruence.
Qed.

Lemma find_keys k m : find k m <> None <-> In k (keys m).
Proof.
  induction m as [|[k' v'] r IH]; simpl.
  - split; [congruence | intros []].
  - destruct (k =? k') eqn:Heq.
    + apply Z.eqb_eq in Heq. split; [intros _; now left | discriminate].
    + apply Z.eqb_neq in Heq. rewrite IH.
      split; [now right | intros [?|?]; [congruence | assumption]].
Qed.

Lemma keys_insert k v m k0 :
  In k0 (keys (insert k v m)) <-> k0 = k \/ In k0 (keys m).
Proof.
  rewrite <- !find_keys, find_insert.
  destruct (k0 =? k) eqn:Heq.
  - apply Z.eqb_eq in Heq. split; [now left | discriminate].
  - apply Z.eqb_neq in Heq. split; [now right | now intros [?|?]].
Qed.

Lemma wf_from_above lo m k : wf_from lo m -> In k (keys m) -> lo < k.
Proof.
  revert lo; induction m as [|[k' v'] r IH]; simpl; intros lo Hwf Hin.
  - contradiction.
  - destruct Hwf as [Hk' Hr]. destruct Hin as [<-|Hin]; [assumption|].
    specialize (IH _ Hr Hin). lia.
Qed.

(** [begin()] designates the entry of the least key. *)
Lemma begin_least m k v :
  wf m -> begin m = Some (k, v) ->
  find k m = Some v /\ forall k', In k' (keys m) -> k <= k'.
Proof.
  destruct m as [|[k0 v0] r]; simpl; [discriminate|].
  intros Hwf Hb. injection Hb as -> ->. rewrite Z.eqb_refl.
  split; [reflexivity|]. intros k' [<-|Hin]; [lia|].
  pose proof (wf_from_above _ _ _ Hwf Hin). lia.
Qed.

Lemma least_begin m k v :
  wf m -> find k m = Some v -> (forall k', In k' (keys m) -> k <= k') ->
  begin m = Some (k, v).
Proof.
  destruct m as [|[k0 v0] r]; simpl; [discriminate|].
  intros Hwf Hf Hleast.
  destruct (k =? k0) eqn:Heq.
  - apply Z.eqb_eq in Heq. congruence.
  - apply Z.eqb_neq in Heq. exfalso.
    assert (Hin : In k (keys r)) by (apply find_keys; congruence).
    pose proof (wf_from_above _ _ _ Hwf Hin).
    specialize (Hleast k0 (or_introl eq_refl)). lia.
Qed.

End Facts.

End FrameMapFacts.

(** ** The validity check *)

Module ValidityFacts.

Lemma nonempty_length {A} (l : list A) :
  (0 <? List.length l)%nat = true <-> l <> [].
Proof.
  destruct l; cbn.
  - split; [discriminate | intros Hn; now elim Hn].
  - split; [discriminate | reflexivity].
Qed.

(** The check is that of the first entry of the map. *)
Lemma operator_bool_begin `{Arith} (g : GeoData) :
  operator_bool g = true <->
  m_vertexIndices g <> [] /\
  exists k v, FrameMap.begin (m_vertices g) = Some (k, v) /\ v <> [].
Proof.
  unfold operator_bool. rewrite !andb_true_iff, nonempty_length.
  destruct (m_vertices g) as [|[k v] r]; simpl.
  - split; [intros [[? _] _]; discriminate | intros [_ (k & v & ? & _)]].
    discriminate.
  - rewrite nonempty_length. split.
    + intros [[_ Hv] Hi]. split; [assumption|]. now exists k, v.
    + intros [Hi (k' & v' & Hb & Hv)]. injection Hb as <- <-. auto.
Qed.

(** C1 (as the code has it). The check returns true if and only if
    [vertexIndices] is not empty and the frame of the least key of the
    vertex map has a non-empty vertex sequence. *)
Theorem operator_bool_first_frame `{Arith} (g : GeoData) :
  FrameMap.wf (m_vertices g) ->
  (operator_bool g = true <->
   m_vertexIndices g <> [] /\
   exists k v,
     FrameMap.find k (m_vertices g) = Some v /\ v <> [] /\
     forall k', In k' (FrameMap.keys (m_vertices g)) -> k <= k').
Proof.
  intros Hwf. rewrite operator_bool_begin. split.
  - intros [Hi (k & v & Hb & Hv)]. split; [assumption|].
    exists k, v. destruct (FrameMapFacts.begin_least _ _ _ Hwf Hb). auto.
  - intros [Hi (k & v & Hf & Hv & Hleast)]. split; [assumption|].
    exists k, v. split; [|assumption].
    now apply FrameMapFacts.least_begin.
Qed.

Lemma operator_bool_first_frame_witness :
  operator_bool Scene.emptyFirstFrame = true <->
  m_vertexIndices Scene.emptyFirstFrame <> [] /\
  exists k v,
    FrameMap.find k (m_vertices Scene.emptyFirstFrame) = Some v /\
    v <> [] /\
    forall k', In k' (FrameMap.keys (m_vertices Scene.emptyFirstFrame)) ->
               k <= k'.
Proof.
  apply (operator_bool_first_frame Scene.emptyFirstFrame).
  simpl. lia.
Defined.

(** C1 (as stated) fails: built from a mesh whose point array is empty
    at frame 1 and holds a triangle at frame 2, the snapshot has a frame
    with a non-empty vertex sequence and a non-empty [vertexIndices],
    and the check returns false. *)
Lemma operator_bool_not_any_frame :
  let g := GeoData_new Scene.lateTriangle "" [1; 2] false
             Scene.lateTriangle true [] in
  ~ (operator_bool g = true <->
     (exists k v, FrameMap.find k (m_vertices g) = Some v /\ v <> [])
     /\ m_vertexIndices g <> []).
Proof.
  intros g [_ Hback].
  assert (Hfalse : operator_bool g = false) by reflexivity.
  rewrite Hback in Hfalse; [discriminate|].
  split; [|discriminate].
  exists 2, [0; 0; 0; 1; 0; 0; 0; 1; 0]. split; [reflexivity | discriminate].
Qed.

End ValidityFacts.

(** ** Running the constructor *)

Module CtorFacts.

Section Steps.

Context `{Arith}.

Lemma bind_ok {A B} (m : Ctor A) (k : A -> Ctor B) s a s' :
  m s = (Some a, s') -> bind m k s = k a s'.
Proof. unfold bind. now intros ->. Qed.

Lemma bind_stop {A B} (m : Ctor A) (k : A -> Ctor B) s s' :
  m s = (None, s') -> bind m k s = (None, s').
Proof. unfold bind. now intros ->. Qed.

Lemma bind_assoc {A B C} (m : Ctor A) (k : A -> Ctor B) (h : B -> Ctor C) s :
  bind (bind m k) h s = bind m (fun a => bind (k a) h) s.
Proof. unfold bind. destruct (m s) as [[a|] s']; reflexivity. Qed.

Lemma Keeps_ret {X A} (f : GeoData -> X) (a : A) : Keeps f (ret a).
Proof. intros s. reflexivity. Qed.

Lemma Keeps_Return {X A} (f : GeoData -> X) : Keeps f (@Return _ A).
Proof. intros s. reflexivity. Qed.

Lemma Keeps_trace {X} (f : GeoData -> X) line : Keeps f (trace line).
Proof. intros s. reflexivity. Qed.

Lemma Keeps_log {X} (f : GeoData -> X) msg : Keeps f (log_push_back msg).
Proof. intros s. reflexivity. Qed.

Lemma Keeps_log_and_return {X A} (f : GeoData -> X) line msg :
  Keeps f (@log_and_return _ A line msg).
Proof. intros s. reflexivity. Qed.

Lemma Keeps_modify {X} (f : GeoData -> X) (u : GeoData -> GeoData) :
  (forall g, f (u g) = f g) -> Keeps f (modify u).
Proof. intros Hu s. apply Hu. Qed.

Lemma Keeps_bind {X A B} (f : GeoData -> X) (m : Ctor A) (k : A -> Ctor B) :
  Keeps f m -> (forall a, Keeps f (k a)) -> Keeps f (bind m k).
Proof.
  intros Hm Hk s. unfold bind. specialize (Hm s).
  destruct (m s) as [[a|] s']; simpl in *.
  - now rewrite Hk.
  - exact Hm.
Qed.

(** What follows a step does not matter to a member it keeps. *)
Lemma Keeps_after {X A B} (f : GeoData -> X) (m : Ctor A)
    (k : A -> Ctor B) s :
  (forall a, Keeps f (k a)) ->
  f (this (snd (bind m k s))) = f (this (snd (m s))).
Proof.
  intros Hk. unfold bind. destruct (m s) as [[a|] s']; simpl.
  - apply Hk.
  - reflexivity.
Qed.

End Steps.

(** Goes through a step made of binds, matches and assignments to
    members other than the one kept. *)
Ltac keeps :=
  repeat first
    [ apply Keeps_ret | apply Keeps_Return | apply Keeps_trace
    | apply Keeps_log | apply Keeps_log_and_return
    | apply Keeps_bind; [|intro]
    | apply Keeps_modify; intro; reflexivity
    | match goal with
      | |- Keeps _ (match ?x with _ => _ end) => destruct x
      end ].

Section Phases.

Context `{Arith}.

Variable prim : UsdPrim.
Variable uvSet : string.
Variable keepCentered : bool.
Variable model : UsdPrim.
Variable ReadFloat2AsUV : bool.

Lemma set_vertices_same (g : GeoData) : set_vertices (m_vertices g) g = g.
Proof. now destruct g. Qed.

(** *** Members the steps leave alone *)

Lemma readTopology_keeps_subdivision :
  Keeps subdivision (readTopology prim uvSet ReadFloat2AsUV).
Proof.
  unfold readTopology, checkMesh, readFaceVertexIndices,
    readFaceVertexCounts, createFaceSelectionIndices, readUVs, readNormals.
  keeps.
Qed.

Lemma readTopology_keeps_vertices :
  Keeps m_vertices (readTopology prim uvSet ReadFloat2AsUV).
Proof.
  unfold readTopology, checkMesh, readFaceVertexIndices,
    readFaceVertexCounts, createFaceSelectionIndices, readUVs, readNormals.
  keeps.
Qed.

Lemma bakeFrames_keeps {X} (f : GeoData -> X) (fs : list Z) :
  (forall v g, f (set_vertices v g) = f g) ->
  Keeps f (bakeFrames prim keepCentered model fs).
Proof.
  intros Hf. induction fs as [|frame rest IH]; simpl.
  - apply Keeps_ret.
  - apply Keeps_bind; [|intros _; exact IH].
    unfold bakeFrame.
    destruct (Points_Get prim (TimeSample (to_unsigned frame))).
    + apply Keeps_modify. intros g. apply Hf.
    + keeps.
Qed.

Lemma store_if_geometry {A} (set : A -> GeoData -> GeoData) r g :
  (forall a g, geometry (set a g) = geometry g) ->
  geometry (store_if set r g) = geometry g.
Proof. intros Hset. destruct r; simpl; [apply Hset | reflexivity]. Qed.

Lemma readSubdivArrays_geometry g :
  geometry (readSubdivArrays prim g) = geometry g.
Proof.
  unfold readSubdivArrays.
  repeat (rewrite store_if_geometry; [|reflexivity]). reflexivity.
Qed.

Lemma store_if_subdivision {A} (set : A -> GeoData -> GeoData) r g :
  (forall a g, subdivision (set a g) = subdivision g) ->
  subdivision (store_if set r g) = subdivision g.
Proof. intros Hset. destruct r; simpl; [apply Hset | reflexivity]. Qed.

Lemma readSubdivArrays_subdivision g :
  subdivision (readSubdivArrays prim g) = subdivision g.
Proof.
  unfold readSubdivArrays.
  repeat (rewrite store_if_subdivision; [|reflexivity]). reflexivity.
Qed.

Lemma mapScheme_geometry tok g : geometry (mapScheme tok g) = geometry g.
Proof.
  unfold mapScheme.
  repeat match goal with |- context [if ?b then _ else _] => destruct b end;
    reflexivity.
Qed.

Lemma mapInterpolateBoundary_geometry g :
  geometry (mapInterpolateBoundary prim g) = geometry g.
Proof.
  unfold mapInterpolateBoundary.
  destruct (InterpolateBoundary_Get prim); [|reflexivity].
  repeat match goal with |- context [if ?b then _ else _] => destruct b end;
    reflexivity.
Qed.

Lemma mapFaceVaryingLinearInterpolation_geometry g :
  geometry (mapFaceVaryingLinearInterpolation prim g) = geometry g.
Proof.
  unfold mapFaceVaryingLinearInterpolation.
  destruct (FaceVaryingLinearInterpolation_Get prim); [|reflexivity].
  repeat match goal with |- context [if ?b then _ else _] => destruct b end;
    reflexivity.
Qed.

Lemma readSubdivisionScheme_geometry g :
  geometry (readSubdivisionScheme prim g) = geometry g.
Proof.
  unfold readSubdivisionScheme.
  destruct (SubdivisionScheme_Get prim) as [tok|]; [|reflexivity].
  destruct (String.eqb tok UsdGeomTokens.none); [reflexivity|].
  now rewrite mapFaceVaryingLinearInterpolation_geometry,
    mapInterpolateBoundary_geometry, mapScheme_geometry.
Qed.

Lemma readSubdiv_keeps_geometry : Keeps geometry (readSubdiv prim).
Proof.
  apply Keeps_modify. intros g.
  now rewrite readSubdivisionScheme_geometry, readSubdivArrays_geometry.
Qed.

End Phases.

End CtorFacts.

(** ** The constructor, phase by phase *)

Module ConstructFacts.

Import CtorFacts.

Section Phases.

Context `{Arith}.

Variable prim : UsdPrim.
Variable uvSet : string.
Variable frames : list Z.
Variable keepCentered : bool.
Variable model : UsdPrim.
Variable ReadFloat2AsUV : bool.

#[local] Abbreviation topology := (readTopology prim uvSet ReadFloat2AsUV).
#[local] Abbreviation baking := (bakeFrames prim keepCentered model).
#[local] Abbreviation body :=
  (construct prim uvSet frames keepCentered model ReadFloat2AsUV).
#[local] Abbreviation built :=
  (GeoData_new prim uvSet frames keepCentered model ReadFloat2AsUV).

Lemma Init_start log0 : Init (start log0) = (Some tt, start log0).
Proof. reflexivity. Qed.

Lemma construct_start log0 :
  body (start log0) =
  bind topology (fun _ => bind (baking frames) (fun _ => readSubdiv prim))
    (start log0).
Proof. unfold construct. now rewrite (bind_ok _ _ _ _ _ (Init_start log0)). Qed.

Lemma readSubdiv_keeps_member {X} (f : GeoData -> X) (p : _ -> X) :
  (forall g, f g = p (geometry g)) -> Keeps f (readSubdiv prim).
Proof.
  intros Hf s. rewrite !Hf. f_equal. apply readSubdiv_keeps_geometry.
Qed.

Lemma readSubdiv_keeps_vertexIndices : Keeps m_vertexIndices (readSubdiv prim).
Proof.
  now apply (readSubdiv_keeps_member _ (fun '(x, _, _, _, _, _, _, _) => x)).
Qed.

Lemma readSubdiv_keeps_faceCounts : Keeps m_faceCounts (readSubdiv prim).
Proof.
  now apply (readSubdiv_keeps_member _ (fun '(_, x, _, _, _, _, _, _) => x)).
Qed.

Lemma readSubdiv_keeps_vertices : Keeps m_vertices (readSubdiv prim).
Proof.
  now apply (readSubdiv_keeps_member _ (fun '(_, _, _, x, _, _, _, _) => x)).
Qed.

Lemma readSubdiv_keeps_uvIndices : Keeps m_uvIndices (readSubdiv prim).
Proof.
  now apply (readSubdiv_keeps_member _ (fun '(_, _, _, _, _, _, x, _) => x)).
Qed.

Lemma readSubdiv_keeps_uvs : Keeps m_uvs (readSubdiv prim).
Proof.
  now apply (readSubdiv_keeps_member _ (fun '(_, _, _, _, _, _, _, x) => x)).
Qed.

(** What follows the reading of the topology keeps a member that
    neither the baking nor the subdivision phase assigns. *)
Lemma finish_keeps {X} (f : GeoData -> X) :
  (forall v g, f (set_vertices v g) = f g) ->
  Keeps f (readSubdiv prim) ->
  Keeps f (bind (baking frames) (fun _ => readSubdiv prim)).
Proof.
  intros Hf Hs. apply Keeps_bind; [now apply bakeFrames_keeps | intros _].
  exact Hs.
Qed.

(** *** The topology read *)

Lemma checkMesh_run s :
  checkMesh prim s =
  if IsMesh prim then (Some tt, s)
  else log_and_return 86
         ("Invalid non-mesh prim " ++ GetPathText prim
          ++ " of type " ++ GetTypeNameText prim)%string s.
Proof. unfold checkMesh. now destruct (IsMesh prim). Qed.

(** The steps between the face counts and the end of the constructor
    keep the two topology arrays. *)
Lemma after_counts_keeps {X} (f : GeoData -> X) :
  (forall v g, f (set_faceSelectionIndices v g) = f g) ->
  (forall v g, f (set_uvIndices v g) = f g) ->
  (forall v g, f (set_uvs v g) = f g) ->
  (forall v g, f (set_normals v g) = f g) ->
  (forall v g, f (set_normalIndices v g) = f g) ->
  (forall v g, f (set_vertices v g) = f g) ->
  Keeps f (readSubdiv prim) ->
  Keeps f
    (bind
       (bind createFaceSelectionIndices
          (fun _ => bind (readUVs prim uvSet ReadFloat2AsUV)
                      (fun _ => readNormals prim)))
       (fun _ => bind (baking frames) (fun _ => readSubdiv prim))).
Proof.
  intros H1 H2 H3 H4 H5 H6 Hs.
  apply Keeps_bind; [|intros _; now apply finish_keeps].
  unfold createFaceSelectionIndices, readUVs, readNormals.
  repeat first
    [ apply Keeps_ret | apply Keeps_log_and_return
    | apply Keeps_bind; [|intro]
    | apply Keeps_modify; intro; auto
    | match goal with
      | |- Keeps _ (match ?x with _ => _ end) => destruct x
      end ].
Qed.

(** The constructor up to the face counts, when it gets that far. *)
Lemma construct_counts log0 a b :
  IsMesh prim = true ->
  FaceVertexIndices_Get prim (topologyTime prim) = Some a ->
  FaceVertexCounts_Get prim (topologyTime prim) = Some b ->
  body (start log0) =
  bind
    (bind createFaceSelectionIndices
       (fun _ => bind (readUVs prim uvSet ReadFloat2AsUV)
                   (fun _ => readNormals prim)))
    (fun _ => bind (baking frames) (fun _ => readSubdiv prim))
    (update_this (set_faceCounts b)
       (update_this (set_vertexIndices a)
          {| this := fresh; log := log0; host_trace := [94; 95]%nat |})).
Proof.
  intros Hm Ha Hb. rewrite construct_start.
  unfold readTopology. rewrite bind_assoc.
  unfold bind at 1. rewrite checkMesh_run, Hm.
  rewrite bind_assoc. unfold bind at 1, trace at 1.
  rewrite bind_assoc. unfold bind at 1, trace at 1.
  rewrite bind_assoc. unfold bind at 1, readFaceVertexIndices at 1.
  rewrite Ha. unfold modify at 1.
  rewrite bind_assoc. unfold bind at 1, readFaceVertexCounts at 1.
  rewrite Hb. unfold modify at 1.
  reflexivity.
Qed.

Lemma built_not_mesh log0 : IsMesh prim = false -> built log0 = fresh.
Proof.
  intros Hm. unfold GeoData_new, construct_new. rewrite construct_start.
  unfold readTopology. rewrite bind_assoc.
  unfold bind at 1. rewrite checkMesh_run, Hm. reflexivity.
Qed.

Lemma built_no_indices log0 :
  IsMesh prim = true ->
  FaceVertexIndices_Get prim (topologyTime prim) = None ->
  built log0 = fresh.
Proof.
  intros Hm Ha. unfold GeoData_new, construct_new. rewrite construct_start.
  unfold readTopology. rewrite bind_assoc.
  unfold bind at 1. rewrite checkMesh_run, Hm.
  rewrite bind_assoc. unfold bind at 1, trace at 1.
  rewrite bind_assoc. unfold bind at 1, trace at 1.
  rewrite bind_assoc. unfold bind at 1, readFaceVertexIndices at 1.
  rewrite Ha. reflexivity.
Qed.

Lemma built_no_counts log0 a :
  IsMesh prim = true ->
  FaceVertexIndices_Get prim (topologyTime prim) = Some a ->
  FaceVertexCounts_Get prim (topologyTime prim) = None ->
  built log0 = set_vertexIndices a fresh.
Proof.
  intros Hm Ha Hb. unfold GeoData_new, construct_new. rewrite construct_start.
  unfold readTopology. rewrite bind_assoc.
  unfold bind at 1. rewrite checkMesh_run, Hm.
  rewrite bind_assoc. unfold bind at 1, trace at 1.
  rewrite bind_assoc. unfold bind at 1, trace at 1.
  rewrite bind_assoc. unfold bind at 1, readFaceVertexIndices at 1.
  rewrite Ha. unfold modify at 1.
  rewrite bind_assoc. unfold bind at 1, readFaceVertexCounts at 1.
  rewrite Hb. reflexivity.
Qed.

Lemma built_counts log0 a b :
  IsMesh prim = true ->
  FaceVertexIndices_Get prim (topologyTime prim) = Some a ->
  FaceVertexCounts_Get prim (topologyTime prim) = Some b ->
  m_vertexIndices (built log0) = a /\ m_faceCounts (built log0) = b.
Proof.
  intros Hm Ha Hb. unfold GeoData_new, construct_new.
  rewrite (construct_counts log0 a b Hm Ha Hb). split.
  - rewrite after_counts_keeps; auto using readSubdiv_keeps_vertexIndices.
  - rewrite after_counts_keeps; auto using readSubdiv_keeps_faceCounts.
Qed.

End Phases.

End ConstructFacts.

(** ** The subdivision members *)

Module SubdivFacts.

Import CtorFacts ConstructFacts.

Section Subdiv.

Context `{Arith}.

Variable prim : UsdPrim.

Lemma subdivDefault_members g :
  subdivDefault g <->
  m_isSubdivMesh g = false /\ m_subdivisionScheme g = "" /\
  m_interpolateBoundary g = 0 /\ m_faceVaryingLinearInterpolation g = 0 /\
  m_propagateCorner g = 0.
Proof.
  unfold subdivDefault, subdivision. split.
  - intros Hg. injection Hg. auto.
  - intros (-> & -> & -> & -> & ->). reflexivity.
Qed.

Lemma fresh_default : subdivDefault fresh.
Proof. reflexivity. Qed.

Lemma readSubdivArrays_default g :
  subdivDefault g -> subdivDefault (readSubdivArrays prim g).
Proof.
  unfold subdivDefault. now rewrite readSubdivArrays_subdivision.
Qed.

(** The token "none" leaves the phase with the members as they were. *)
Lemma readSubdivisionScheme_none g :
  SubdivisionScheme_Get prim = Some UsdGeomTokens.none ->
  subdivDefault g -> subdivDefault (readSubdivisionScheme prim g).
Proof.
  intros Hnone Hg. apply subdivDefault_members in Hg.
  destruct Hg as (_ & Hs & Hb & Hf & Hp).
  unfold readSubdivisionScheme. rewrite Hnone. simpl.
  apply subdivDefault_members. simpl. auto.
Qed.



End Subdiv.

Section Built.

Context `{Arith}.

Variable prim : UsdPrim.
Variable uvSet : string.
Variable frames : list Z.
Variable keepCentered : bool.
Variable model : UsdPrim.
Variable ReadFloat2AsUV : bool.

(** The object built is what the phases before the subdivision one
    left, with its subdivision members as [Init] set them, or what the
    subdivision phase made of it. *)
Lemma built_subdivision log0 :
  exists g0,
    subdivDefault g0 /\
    (GeoData_new prim uvSet frames keepCentered model ReadFloat2AsUV log0
     = g0
     \/ GeoData_new prim uvSet frames keepCentered model ReadFloat2AsUV log0
        = readSubdivisionScheme prim (readSubdivArrays prim g0)).
Proof.
  unfold GeoData_new, construct_new. rewrite construct_start.
  rewrite <- (bind_assoc (readTopology prim uvSet ReadFloat2AsUV)
                (fun _ => bakeFrames prim keepCentered model frames)
                (fun _ => readSubdiv prim)).
  assert (Hk : Keeps subdivision
                 (bind (readTopology prim uvSet ReadFloat2AsUV)
                    (fun _ => bakeFrames prim keepCentered model frames))).
  { apply Keeps_bind; [apply readTopology_keeps_subdivision | intros _].
    now apply bakeFrames_keeps. }
  specialize (Hk (start log0)).
  destruct (bind (readTopology prim uvSet ReadFloat2AsUV)
              (fun _ => bakeFrames prim keepCentered model frames)
              (start log0)) as [[[]|] s2] eqn:Hrun;
    simpl in Hk; exists (this s2); (split; [exact Hk|]).
  - right. now rewrite (bind_ok _ _ _ _ _ Hrun).
  - left. now rewrite (bind_stop _ _ _ _ Hrun).
Qed.

End Built.

(** C7. If the subdivision scheme token read from the node is "none",
    then after construction [isSubdivMesh] is false, the scheme name is
    empty and [interpolateBoundary], [faceVaryingLinearInterpolation] and
    [propagateCorner] are zero, whatever the boundary and face-varying
    interpolation attributes of the node are. *)
Theorem scheme_none_keeps_defaults `{Arith} (prim : UsdPrim) (uvSet : string)
    (frames : list Z) (keepCentered : bool) (model : UsdPrim)
    (ReadFloat2AsUV : bool) (log0 : list string) :
  SubdivisionScheme_Get prim = Some UsdGeomTokens.none ->
  let g := GeoData_new prim uvSet frames keepCentered model ReadFloat2AsUV
             log0 in
  m_isSubdivMesh g = false /\ m_subdivisionScheme g = "" /\
  m_interpolateBoundary g = 0 /\ m_faceVaryingLinearInterpolation g = 0 /\
  m_propagateCorner g = 0.
Proof.
  intros Hnone g. apply subdivDefault_members. subst g.
  destruct (built_subdivision prim uvSet frames keepCentered model
              ReadFloat2AsUV log0) as (g0 & Hg0 & [-> | ->]).
  - exact Hg0.
  - apply readSubdivisionScheme_none; [exact Hnone|].
    now apply readSubdivArrays_default.
Qed.

Lemma scheme_none_keeps_defaults_witness :
  let g := GeoData_new Scene.polygonalTriangle "" [1] false
             Scene.polygonalTriangle true [] in
  m_isSubdivMesh g = false /\ m_subdivisionScheme g = "" /\
  m_interpolateBoundary g = 0 /\ m_faceVaryingLinearInterpolation g = 0 /\
  m_propagateCorner g = 0.
Proof.
  apply (scheme_none_keeps_defaults Scene.polygonalTriangle "" [1] false
           Scene.polygonalTriangle true []).
  reflexivity.
Defined.


End SubdivFacts.

(** ** The topology and the UV indices of the object built *)

Module TopologyFacts.

Import CtorFacts ConstructFacts.

(** C3 (as the code has it). The extractor counts a mesh as
    topology-varying if and only if its face-vertex-index attribute
    carries at least one time sample; the topology of a mesh, its
    face-vertex indices and, once those are read, its face-vertex
    counts, is that read at the earliest sample when there is at least
    one sample, exactly one included, and that read at the default time
    when there is none. *)
Theorem topology_varying_from_one_sample `{Arith} (prim : UsdPrim)
    (uvSet : string) (frames : list Z) (keepCentered : bool)
    (model : UsdPrim) (ReadFloat2AsUV : bool) (log0 : list string) :
  IsMesh prim = true ->
  let g := GeoData_new prim uvSet frames keepCentered model ReadFloat2AsUV
             log0 in
  let n := FaceVertexIndices_GetNumTimeSamples prim in
  (isTopologyVarying prim = true <-> (1 <= n)%nat)
  /\ ((1 <= n)%nat ->
      m_vertexIndices g =
        match FaceVertexIndices_Get prim EarliestTime with
        | Some a => a
        | None => []
        end
      /\ m_faceCounts g =
         match FaceVertexIndices_Get prim EarliestTime,
               FaceVertexCounts_Get prim EarliestTime with
         | Some _, Some b => b
         | _, _ => []
         end)
  /\ (n = 0%nat ->
      m_vertexIndices g =
        match FaceVertexIndices_Get prim Default with
        | Some a => a
        | None => []
        end
      /\ m_faceCounts g =
         match FaceVertexIndices_Get prim Default,
               FaceVertexCounts_Get prim Default with
         | Some _, Some b => b
         | _, _ => []
         end).
Proof.
  intros Hm g n.
  assert (Hg : m_vertexIndices g =
                 match FaceVertexIndices_Get prim (topologyTime prim) with
                 | Some a => a
                 | None => []
                 end
               /\ m_faceCounts g =
                  match FaceVertexIndices_Get prim (topologyTime prim),
                        FaceVertexCounts_Get prim (topologyTime prim) with
                  | Some _, Some b => b
                  | _, _ => []
                  end).
  { subst g.
    destruct (FaceVertexIndices_Get prim (topologyTime prim)) as [a|] eqn:Ha.
    - destruct (FaceVertexCounts_Get prim (topologyTime prim)) as [b|] eqn:Hb.
      + exact (built_counts prim uvSet frames keepCentered model
                 ReadFloat2AsUV log0 a b Hm Ha Hb).
      + now rewrite (built_no_counts prim uvSet frames keepCentered model
                       ReadFloat2AsUV log0 a Hm Ha Hb).
    - now rewrite (built_no_indices prim uvSet frames keepCentered model
                     ReadFloat2AsUV log0 Hm Ha). }
  unfold topologyTime, isTopologyVarying in *. fold n in Hg |- *.
  split; [apply Nat.leb_le|]. split.
  - intros Hn. apply Nat.leb_le in Hn. now rewrite Hn in Hg.
  - intros Hn. now rewrite Hn in Hg.
Qed.

Lemma topology_varying_from_one_sample_witness :
  let g := GeoData_new Scene.sampledTriangle "" [1] false
             Scene.sampledTriangle true [] in
  let n := FaceVertexIndices_GetNumTimeSamples Scene.sampledTriangle in
  (isTopologyVarying Scene.sampledTriangle = true <-> (1 <= n)%nat)
  /\ ((1 <= n)%nat ->
      m_vertexIndices g =
        match FaceVertexIndices_Get Scene.sampledTriangle EarliestTime with
        | Some a => a
        | None => []
        end
      /\ m_faceCounts g =
         match FaceVertexIndices_Get Scene.sampledTriangle EarliestTime,
               FaceVertexCounts_Get Scene.sampledTriangle EarliestTime with
         | Some _, Some b => b
         | _, _ => []
         end)
  /\ (n = 0%nat ->
      m_vertexIndices g =
        match FaceVertexIndices_Get Scene.sampledTriangle Default with
        | Some a => a
        | None => []
        end
      /\ m_faceCounts g =
         match FaceVertexIndices_Get Scene.sampledTriangle Default,
               FaceVertexCounts_Get Scene.sampledTriangle Default with
         | Some _, Some b => b
         | _, _ => []
         end).
Proof.
  apply (topology_varying_from_one_sample Scene.sampledTriangle "" [1] false
           Scene.sampledTriangle true []).
  reflexivity.
Defined.

(** C3 (as stated) fails: a mesh whose face-vertex-index attribute has
    exactly one time sample, and no default value, is counted as
    topology-varying, and its indices are read at the earliest sample,
    not at the default time, where the read fails. *)
Lemma single_sample_is_varying :
  let p := Scene.sampledTriangle in
  FaceVertexIndices_GetNumTimeSamples p = 1%nat
  /\ ~ (isTopologyVarying p = true <->
        (1 < FaceVertexIndices_GetNumTimeSamples p)%nat)
  /\ topologyTime p <> Default
  /\ FaceVertexIndices_Get p Default = None
  /\ m_vertexIndices (GeoData_new p "" [1] false p true []) = [0; 1; 2].
Proof.
  cbv zeta. split; [reflexivity|]. split.
  - intros [Hv _]. specialize (Hv eq_refl). simpl in Hv. lia.
  - split; [discriminate|]. split; reflexivity.
Qed.

(** C5 (as the code has it). The two topology arrays of a boolean-true
    snapshot are the arrays read from the source, which the constructor
    does not compare: the sum of [faceCounts] equals the length of
    [vertexIndices] whenever this holds of the source's arrays. *)
Theorem faceCounts_sum_from_source `{Arith} (prim : UsdPrim)
    (uvSet : string) (frames : list Z) (keepCentered : bool)
    (model : UsdPrim) (ReadFloat2AsUV : bool) (log0 : list string) :
  let g := GeoData_new prim uvSet frames keepCentered model ReadFloat2AsUV
             log0 in
  operator_bool g = true ->
  exists a b,
    FaceVertexIndices_Get prim (topologyTime prim) = Some a
    /\ FaceVertexCounts_Get prim (topologyTime prim) = Some b
    /\ m_vertexIndices g = a
    /\ m_faceCounts g = b
    /\ (sumZ b = Z.of_nat (List.length a) ->
        sumZ (m_faceCounts g) = Z.of_nat (List.length (m_vertexIndices g))).
Proof.
  intros g Hok. subst g.
  destruct (IsMesh prim) eqn:Hm.
  - destruct (FaceVertexIndices_Get prim (topologyTime prim)) as [a|] eqn:Ha.
    + destruct (FaceVertexCounts_Get prim (topologyTime prim))
        as [b|] eqn:Hb.
      * destruct (built_counts prim uvSet frames keepCentered model
                    ReadFloat2AsUV log0 a b Hm Ha Hb) as [Hva Hfb].
        exists a, b. rewrite Hva, Hfb. auto.
      * rewrite (built_no_counts prim uvSet frames keepCentered model
                   ReadFloat2AsUV log0 a Hm Ha Hb) in Hok.
        discriminate Hok.
    + rewrite (built_no_indices prim uvSet frames keepCentered model
                 ReadFloat2AsUV log0 Hm Ha) in Hok.
      discriminate Hok.
  - rewrite (built_not_mesh prim uvSet frames keepCentered model
               ReadFloat2AsUV log0 Hm) in Hok.
    discriminate Hok.
Qed.

Lemma faceCounts_sum_from_source_witness :
  let g := GeoData_new Scene.triangle "" [1] false Scene.triangle true [] in
  exists a b,
    FaceVertexIndices_Get Scene.triangle (topologyTime Scene.triangle)
    = Some a
    /\ FaceVertexCounts_Get Scene.triangle (topologyTime Scene.triangle)
       = Some b
    /\ m_vertexIndices g = a
    /\ m_faceCounts g = b
    /\ (sumZ b = Z.of_nat (List.length a) ->
        sumZ (m_faceCounts g) = Z.of_nat (List.length (m_vertexIndices g))).
Proof.
  apply (faceCounts_sum_from_source Scene.triangle "" [1] false
           Scene.triangle true []).
  reflexivity.
Defined.

(** C5 (as stated) fails: the snapshot of a triangle whose face counts
    are [4] is boolean-true, and its face counts sum to 4 while it has
    three vertex indices. *)
Lemma faceCounts_sum_not_checked :
  let g := GeoData_new Scene.miscountedTriangle "" [1] false
             Scene.miscountedTriangle true [] in
  ~ (operator_bool g = true ->
     sumZ (m_faceCounts g) = Z.of_nat (List.length (m_vertexIndices g))).
Proof.
  intros g Hclaim. specialize (Hclaim eq_refl). discriminate Hclaim.
Qed.

(** C6. When the requested UV set is a primvar that is accepted, whose
    values can be read and whose indices cannot, the [uvIndices] stored
    are 0, 1, ..., one less than the number of vertex indices. *)
Theorem uvIndices_identity `{Arith} (prim : UsdPrim) (uvSet : string)
    (frames : list Z) (keepCentered : bool) (model : UsdPrim)
    (ReadFloat2AsUV : bool) (log0 : list string)
    (a b : list Z) (uvPrimvar : UsdGeomPrimvar)
    (values : list (float * float)) :
  IsMesh prim = true ->
  FaceVertexIndices_Get prim (topologyTime prim) = Some a ->
  FaceVertexCounts_Get prim (topologyTime prim) = Some b ->
  uvSet <> "" ->
  GetPrimvar prim uvSet = Some uvPrimvar ->
  uvAccepted ReadFloat2AsUV uvPrimvar = true ->
  Get uvPrimvar EarliestTime = Some values ->
  GetIndices uvPrimvar (topologyTime prim) = None ->
  let g := GeoData_new prim uvSet frames keepCentered model ReadFloat2AsUV
             log0 in
  m_uvIndices g = iota (List.length (m_vertexIndices g))
  /\ forall i, (i < List.length (m_vertexIndices g))%nat ->
               nth_error (m_uvIndices g) i = Some (Z.of_nat i).
Proof.
  intros Hm Ha Hb Hset Hpv Hacc Hval Hidx g.
  assert (Hg : m_uvIndices g = iota (List.length (m_vertexIndices g))).
  { subst g.
    destruct (built_counts prim uvSet frames keepCentered model
                ReadFloat2AsUV log0 a b Hm Ha Hb) as [-> _].
    unfold GeoData_new, construct_new.
    rewrite (construct_counts prim uvSet frames keepCentered model
               ReadFloat2AsUV log0 a b Hm Ha Hb).
    rewrite bind_assoc.
    unfold bind at 1, createFaceSelectionIndices at 1, modify at 1.
    rewrite bind_assoc, Keeps_after.
    - unfold readUVs. rewrite Hpv, Hacc, Hval, Hidx.
      destruct uvSet; [contradiction|]. reflexivity.
    - intros _. apply Keeps_bind; [|intros _].
      + unfold readNormals. keeps.
      + apply finish_keeps; [reflexivity|].
        apply readSubdiv_keeps_uvIndices. }
  split; [exact Hg|]. intros i Hi. rewrite Hg. unfold iota.
  rewrite nth_error_map, nth_error_seq.
  apply Nat.ltb_lt in Hi. now rewrite Hi.
Qed.

Lemma uvIndices_identity_witness :
  let g := GeoData_new Scene.texturedTriangle "st" [1] false
             Scene.texturedTriangle true [] in
  m_uvIndices g = iota (List.length (m_vertexIndices g))
  /\ forall i, (i < List.length (m_vertexIndices g))%nat ->
               nth_error (m_uvIndices g) i = Some (Z.of_nat i).
Proof.
  apply (uvIndices_identity Scene.texturedTriangle "st" [1] false
           Scene.texturedTriangle true [] [0; 1; 2] [3] Scene.sampledSt
           [(0, 0); (1, 0); (0, 1)]);
    try reflexivity.
  discriminate.
Defined.

(** C4, the code on a mesh with a static topology whose texture
    coordinates have a default value and time samples that differ: the
    indices stored are those of the default time, as the topology rule
    has it, and the values stored are those of the earliest sample, not
    those of the default time; nothing is logged. *)
Lemma uv_values_read_at_earliest_time :
  let p := Scene.retimedTriangle in
  let s := construct_new p "st" [1] false p true [] in
  isTopologyVarying p = false
  /\ topologyTime p = Default
  /\ GetPrimvar p "st" = Some Scene.retimedSt
  /\ Get Scene.retimedSt (topologyTime p) = Some [(0, 0); (1, 1)]
  /\ m_uvs (this s) = [5; 5]
  /\ m_uvs (this s) <> [0; 0; 1; 1]
  /\ m_uvIndices (this s) = [0; 1; 1]
  /\ log s = [].
Proof.
  cbv zeta. repeat split. discriminate.
Qed.

(** The values of a UV set are read at the earliest sample whatever the
    topology is: when that read fails the message is logged and the
    constructor returns. *)
Lemma uv_values_unreadable `{Arith} (prim : UsdPrim) (uvSet : string)
    (ReadFloat2AsUV : bool) (uvPrimvar : UsdGeomPrimvar) (s : State) :
  uvSet <> "" ->
  GetPrimvar prim uvSet = Some uvPrimvar ->
  uvAccepted ReadFloat2AsUV uvPrimvar = true ->
  Get uvPrimvar EarliestTime = None ->
  readUVs prim uvSet ReadFloat2AsUV s =
  (None,
   {| this := this s;
      log := log s ++ ["discarding because could not read uvs on "
                       ++ GetPathText prim]%string;
      host_trace := host_trace s ++ [174%nat] |}).
Proof.
  intros Hset Hpv Hacc Hval. unfold readUVs.
  rewrite Hpv, Hacc, Hval. destruct uvSet; [contradiction|]. reflexivity.
Qed.

End TopologyFacts.

(** ** The frames baked *)

Module BakingFacts.

Import CtorFacts ConstructFacts.

Section Baking.

Context `{Arith}.

Variable prim : UsdPrim.
Variable keepCentered : bool.
Variable model : UsdPrim.

Lemma bakedEntries_cons frame fs m :
  bakedEntries prim keepCentered model (frame :: fs) m =
  bakedEntries prim keepCentered model fs
    (match Points_Get prim (TimeSample (to_unsigned frame)) with
     | Some pointsVt =>
         FrameMap.insert (frameKey (to_unsigned frame))
           (bakePoints prim keepCentered model (to_unsigned frame) pointsVt)
           m
     | None => m
     end).
Proof. reflexivity. Qed.

(** The loop over the frames leaves the constructor at the first frame
    whose points cannot be read, the frames before it stored. *)
Lemma bakeFrames_stops pre f post s :
  (forall x, In x pre ->
             Points_Get prim (TimeSample (to_unsigned x)) <> None) ->
  Points_Get prim (TimeSample (to_unsigned f)) = None ->
  bakeFrames prim keepCentered model (pre ++ f :: post) s =
  (None,
   {| this :=
        set_vertices
          (bakedEntries prim keepCentered model pre (m_vertices (this s)))
          (this s);
      log := log s ++ ["Failed getting faces on " ++ GetPathName prim]%string;
      host_trace := host_trace s ++ [230%nat] |}).
Proof.
  intros Hpre Hf. revert s.
  induction pre as [|x pre IH]; intros s; simpl app; cbn [bakeFrames].
  - unfold bind, bakeFrame. rewrite Hf. unfold log_and_return.
    unfold bakedEntries. simpl. now rewrite set_vertices_same.
  - unfold bind at 1, bakeFrame at 1. rewrite bakedEntries_cons.
    destruct (Points_Get prim (TimeSample (to_unsigned x))) as [pts|] eqn:Hx.
    + unfold modify. rewrite IH.
      * reflexivity.
      * intros y Hy. apply Hpre. now right.
    + exfalso. apply (Hpre x); [now left | exact Hx].
Qed.

(** The keys stored are those of the frames gone through. *)
Lemma bakedEntries_keys fs m k :
  (forall x, In x fs ->
             Points_Get prim (TimeSample (to_unsigned x)) <> None) ->
  In k (FrameMap.keys (bakedEntries prim keepCentered model fs m)) <->
  In k (FrameMap.keys m) \/
  exists x, In x fs /\ frameKey (to_unsigned x) = k.
Proof.
  revert m; induction fs as [|x fs IH]; intros m Hfs.
  - simpl. split; [now left | intros [?|(x & [] & _)]; assumption].
  - rewrite bakedEntries_cons, IH by (intros y Hy; apply Hfs; now right).
    destruct (Points_Get prim (TimeSample (to_unsigned x))) as [pts|] eqn:Hx;
      [|exfalso; apply (Hfs x); [now left | exact Hx]].
    rewrite FrameMapFacts.keys_insert. split.
    + intros [[->|Hk]|(y & Hy & Hky)].
      * right. exists x. split; [now left | reflexivity].
      * now left.
      * right. exists y. split; [now right | assumption].
    + intros [Hk|(y & [->|Hy] & Hky)].
      * left. now right.
      * left. left. now rewrite Hky.
      * right. now exists y.
Qed.

(** Every entry stored is the baked array of one of the frames. *)
Lemma bakedEntries_find fs m k v :
  FrameMap.find k (bakedEntries prim keepCentered model fs m) = Some v ->
  FrameMap.find k m = Some v \/
  exists x pointsVt,
    In x fs /\ frameKey (to_unsigned x) = k /\
    Points_Get prim (TimeSample (to_unsigned x)) = Some pointsVt /\
    v = bakePoints prim keepCentered model (to_unsigned x) pointsVt.
Proof.
  revert m; induction fs as [|x fs IH]; intros m.
  - simpl. now left.
  - rewrite bakedEntries_cons. intros Hfind.
    destruct (IH _ Hfind) as [Hm|(y & pts & Hy & Hk & Hp & Hv)].
    + destruct (Points_Get prim (TimeSample (to_unsigned x)))
        as [pts|] eqn:Hx; [|now left].
      rewrite FrameMapFacts.find_insert in Hm.
      destruct (k =? frameKey (to_unsigned x)) eqn:Hk; [|now left].
      apply Z.eqb_eq in Hk. injection Hm as <-.
      right. exists x, pts. repeat split; auto. now left.
    + right. exists y, pts. repeat split; auto. now right.
Qed.

(** The loop keeps the map in key order. *)
Lemma bakeFrames_wf fs s :
  FrameMap.wf (m_vertices (this s)) ->
  FrameMap.wf
    (m_vertices (this (snd (bakeFrames prim keepCentered model fs s)))).
Proof.
  revert s; induction fs as [|x fs IH]; intros s Hwf; cbn [bakeFrames].
  - exact Hwf.
  - unfold bind, bakeFrame.
    destruct (Points_Get prim (TimeSample (to_unsigned x))) as [pts|].
    + unfold modify. apply IH. simpl. now apply FrameMapFacts.wf_insert.
    + exact Hwf.
Qed.

End Baking.

(** A frame number that is an [int] is its own key. *)
Lemma frameKey_to_unsigned (frame : Z) :
  - 2 ^ 31 <= frame < 2 ^ 31 -> frameKey (to_unsigned frame) = frame.
Proof.
  intros Hr. unfold frameKey, to_int, to_unsigned.
  rewrite Z.mod_mod by lia.
  destruct (Z_lt_le_dec frame 0) as [Hneg|Hpos].
  - replace (frame mod 2 ^ 32) with (frame + 2 ^ 32).
    + destruct (frame + 2 ^ 32 <? 2 ^ 31) eqn:Hc; [|lia].
      apply Z.ltb_lt in Hc. lia.
    + apply Z.mod_unique with (q := -1); lia.
  - rewrite Z.mod_small by lia.
    destruct (frame <? 2 ^ 31) eqn:Hc; [reflexivity|].
    apply Z.ltb_ge in Hc. lia.
Qed.

(** The vertex map of every object built is in key order. *)
Lemma built_vertices_wf `{Arith} (prim : UsdPrim) (uvSet : string)
    (frames : list Z) (keepCentered : bool) (model : UsdPrim)
    (ReadFloat2AsUV : bool) (log0 : list string) :
  FrameMap.wf
    (m_vertices
       (GeoData_new prim uvSet frames keepCentered model ReadFloat2AsUV
          log0)).
Proof.
  unfold GeoData_new, construct_new. rewrite construct_start.
  pose proof (readTopology_keeps_vertices prim uvSet ReadFloat2AsUV
                (start log0)) as Hk.
  destruct (readTopology prim uvSet ReadFloat2AsUV (start log0))
    as [[[]|] s1] eqn:Hrun; simpl in Hk.
  - rewrite (bind_ok _ _ _ _ _ Hrun).
    rewrite Keeps_after by (intros _; apply readSubdiv_keeps_vertices).
    apply bakeFrames_wf. rewrite Hk. exact I.
  - rewrite (bind_stop _ _ _ _ Hrun). simpl. rewrite Hk. exact I.
Qed.

(** C8. If, the phases before it having gone through, the point array
    cannot be read at one of the requested frames, the constructor logs
    a message and returns at once: the vertex map holds the baked
    entries of the frames requested before that one, no other entry,
    and the rest of the snapshot is as those phases left it. *)
Theorem bake_failure_keeps_earlier_frames `{Arith} (prim : UsdPrim)
    (uvSet : string) (pre : list Z) (f : Z) (post : list Z)
    (keepCentered : bool) (model : UsdPrim) (ReadFloat2AsUV : bool)
    (log0 : list string) (s1 : State) :
  readTopology prim uvSet ReadFloat2AsUV (start log0) = (Some tt, s1) ->
  (forall x, In x pre ->
             Points_Get prim (TimeSample (to_unsigned x)) <> None) ->
  Points_Get prim (TimeSample (to_unsigned f)) = None ->
  let r := construct prim uvSet (pre ++ f :: post) keepCentered model
             ReadFloat2AsUV (start log0) in
  fst r = None
  /\ log (snd r) =
     log s1 ++ ["Failed getting faces on " ++ GetPathName prim]%string
  /\ this (snd r) =
     set_vertices
       (bakedEntries prim keepCentered model pre FrameMap.empty) (this s1)
  /\ (forall k,
        In k (FrameMap.keys (m_vertices (this (snd r)))) <->
        exists x, In x pre /\ frameKey (to_unsigned x) = k)
  /\ (forall k v,
        FrameMap.find k (m_vertices (this (snd r))) = Some v ->
        exists x pointsVt,
          In x pre /\ frameKey (to_unsigned x) = k /\
          Points_Get prim (TimeSample (to_unsigned x)) = Some pointsVt /\
          v = bakePoints prim keepCentered model (to_unsigned x) pointsVt).
Proof.
  intros Hrun Hpre Hf r.
  assert (Hempty : m_vertices (this s1) = FrameMap.empty).
  { pose proof (readTopology_keeps_vertices prim uvSet ReadFloat2AsUV
                  (start log0)) as Hk.
    now rewrite Hrun in Hk. }
  assert (Hr : r =
    (None,
     {| this :=
          set_vertices
            (bakedEntries prim keepCentered model pre FrameMap.empty)
            (this s1);
        log := log s1
               ++ ["Failed getting faces on " ++ GetPathName prim]%string;
        host_trace := host_trace s1 ++ [230%nat] |})).
  { subst r. rewrite construct_start, (bind_ok _ _ _ _ _ Hrun).
    rewrite <- Hempty. apply bind_stop. now apply bakeFrames_stops. }
  rewrite Hr. cbn [fst snd this log m_vertices set_vertices].
  repeat split.
  - rewrite bakedEntries_keys by exact Hpre. now intros [[]|?].
  - intros Hk. rewrite bakedEntries_keys by exact Hpre. now right.
  - intros k v Hfind.
    destruct (bakedEntries_find _ _ _ _ _ _ _ Hfind) as [Hnone|Hsome];
      [discriminate Hnone | exact Hsome].
Qed.

Lemma bake_failure_keeps_earlier_frames_witness :
  let p := Scene.interruptedTriangle in
  let s1 := snd (readTopology p "" true (start [])) in
  let r := construct p "" ([1] ++ 2 :: [3]) false p true (start []) in
  fst r = None
  /\ log (snd r) =
     log s1 ++ ["Failed getting faces on " ++ GetPathName p]%string
  /\ this (snd r) =
     set_vertices (bakedEntries p false p [1] FrameMap.empty) (this s1)
  /\ (forall k,
        In k (FrameMap.keys (m_vertices (this (snd r)))) <->
        exists x, In x [1] /\ frameKey (to_unsigned x) = k)
  /\ (forall k v,
        FrameMap.find k (m_vertices (this (snd r))) = Some v ->
        exists x pointsVt,
          In x [1] /\ frameKey (to_unsigned x) = k /\
          Points_Get p (TimeSample (to_unsigned x)) = Some pointsVt /\
          v = bakePoints p false p (to_unsigned x) pointsVt).
Proof.
  apply (bake_failure_keeps_earlier_frames Scene.interruptedTriangle ""
           [1] 2 [3] false Scene.interruptedTriangle true []
           (snd (readTopology Scene.interruptedTriangle "" true (start [])))).
  - reflexivity.
  - intros x [<-|[]]. discriminate.
  - reflexivity.
Defined.

End BakingFacts.

(** ** Reloading the lists *)

Module ReloadFacts.

Import PathFilter.

Lemma tokens_from_nonempty (delims cur s tok : string) :
  In tok (Str.tokens_from delims cur s) -> tok <> "".
Proof.
  revert cur; induction s as [|c s IH]; intros cur; simpl.
  - destruct cur; simpl; [intros [] | intros [<-|[]]; discriminate].
  - destruct (Str.is_delim delims c).
    + rewrite in_app_iff. intros [Hin|Hin]; [|now apply IH in Hin].
      destruct cur; simpl in Hin; [contradiction|].
      destruct Hin as [<-|[]]. discriminate.
    + apply IH.
Qed.

(** [TfStringTokenize] returns no empty token. *)
Lemma TfStringTokenize_nonempty (src delims tok : string) :
  In tok (Str.TfStringTokenize src delims) -> tok <> "".
Proof. apply tokens_from_nonempty. Qed.

(** C9 (as the code has it). On reload, each list whose variable is
    set, to the empty string or not, is replaced by the comma-separated
    tokens of the value, which are none for the empty string; the list
    of a variable that is not set is left as it was. *)
Theorem reload_replaces_when_set (getenv : Env) (cfg : Lists) :
  let cfg' := InitializePathSubstringLists getenv cfg in
  _ignoreGeomPathSubstring cfg' =
    match getenv _ignoreGeomPathSubstringEnvVar with
    | Some v => Str.TfStringTokenize v ","
    | None => _ignoreGeomPathSubstring cfg
    end
  /\ _requireGeomPathSubstring cfg' =
     match getenv _requireGeomPathSubstringEnvVar with
     | Some v => Str.TfStringTokenize v ","
     | None => _requireGeomPathSubstring cfg
     end
  /\ Str.TfStringTokenize "" "," = [].
Proof.
  unfold InitializePathSubstringLists.
  destruct (getenv _ignoreGeomPathSubstringEnvVar),
    (getenv _requireGeomPathSubstringEnvVar); repeat split.
Qed.

(** C9 (as stated) fails: with the ignore variable set to the empty
    string, the ignore list loses its two entries. *)
Lemma reload_empty_variable_erases :
  let cfg' := InitializePathSubstringLists Scene.emptyIgnoreEnv
                Scene.someLists in
  ~ (Scene.emptyIgnoreEnv _ignoreGeomPathSubstringEnvVar = Some "" ->
     _ignoreGeomPathSubstring cfg'
     = _ignoreGeomPathSubstring Scene.someLists).
Proof.
  intros cfg' Hclaim. specialize (Hclaim eq_refl). discriminate Hclaim.
Qed.

End ReloadFacts.

(** ** More on the path filter *)

Module PathFilterMore.

Import PathFilter.

(** The verdict of [TestPath] depends on which patterns each list
    holds, not on their order or on how often they occur. *)
Theorem TestPath_same_members (cfg cfg' : Lists) (path : string) :
  (forall r, In r (_requireGeomPathSubstring cfg) <->
             In r (_requireGeomPathSubstring cfg')) ->
  (forall i, In i (_ignoreGeomPathSubstring cfg) <->
             In i (_ignoreGeomPathSubstring cfg')) ->
  TestPath cfg path = TestPath cfg' path.
Proof.
  intros Hreq Hign.
  assert (Hiff : TestPath cfg path = true <-> TestPath cfg' path = true).
  { rewrite !PathFilterFacts.TestPath_true. split.
    - intros [Hr Hi]. split.
      + destruct Hr as [He|(r & Hin & Hs)].
        * destruct (_requireGeomPathSubstring cfg') as [|r' l'];
            [now left|].
          exfalso. rewrite He in Hreq. apply (Hreq r'). now left.
        * right. exists r. split; [now apply Hreq | assumption].
      + intros i Hin. apply Hi. now apply Hign.
    - intros [Hr Hi]. split.
      + destruct Hr as [He|(r & Hin & Hs)].
        * destruct (_requireGeomPathSubstring cfg) as [|r' l'];
            [now left|].
          exfalso. rewrite He in Hreq. apply (Hreq r'). now left.
        * right. exists r. split; [now apply Hreq | assumption].
      + intros i Hin. apply Hi. now apply Hign. }
  destruct (TestPath cfg path), (TestPath cfg' path); try reflexivity.
  - symmetry. now apply Hiff.
  - now apply Hiff.
Qed.

Lemma TestPath_same_members_witness :
  TestPath Samples.geoOnly "/World/geo/tri"
  = TestPath Samples.geoOnlyShuffled "/World/geo/tri".
Proof.
  apply (TestPath_same_members Samples.geoOnly Samples.geoOnlyShuffled
           "/World/geo/tri"); simpl; tauto.
Defined.

(** An empty pattern occurs in every path: with one in the ignore list,
    [TestPath] rejects every path. *)
Theorem TestPath_blank_ignore (cfg : Lists) (path : string) :
  In "" (_ignoreGeomPathSubstring cfg) -> TestPath cfg path = false.
Proof.
  intros Hin. destruct (TestPath cfg path) eqn:Ht; [|reflexivity].
  apply PathFilterFacts.TestPath_true in Ht as [_ Hi].
  exfalso. apply (Hi "" Hin). exists EmptyString, path. reflexivity.
Qed.

Lemma TestPath_blank_ignore_witness :
  TestPath Samples.blankIgnore "/World/geo/tri" = false.
Proof.
  apply (TestPath_blank_ignore Samples.blankIgnore "/World/geo/tri").
  simpl. tauto.
Defined.

(** Ignoring more patterns accepts no more paths: a path accepted with
    a longer ignore list is accepted when entries of that list are
    taken away, the require list being the same. *)
Theorem TestPath_ignore_monotone (cfg cfg' : Lists) (path : string) :
  _requireGeomPathSubstring cfg = _requireGeomPathSubstring cfg' ->
  (forall i, In i (_ignoreGeomPathSubstring cfg) ->
             In i (_ignoreGeomPathSubstring cfg')) ->
  TestPath cfg' path = true -> TestPath cfg path = true.
Proof.
  intros Hreq Hign. rewrite !PathFilterFacts.TestPath_true, Hreq.
  intros [Hr Hi]. split; [exact Hr|].
  intros i Hin. apply Hi. now apply Hign.
Qed.

Lemma TestPath_ignore_monotone_witness :
  TestPath Samples.geoOnly "/World/geo/tri" = true.
Proof.
  apply (TestPath_ignore_monotone Samples.geoOnly Samples.geoNoGuides
           "/World/geo/tri").
  - reflexivity.
  - simpl. tauto.
  - reflexivity.
Defined.

(** Reloading twice from the same environment is reloading once, and
    when both variables are set the lists reloaded do not depend on the
    lists there were. *)
Theorem reload_idempotent (getenv : Env) (cfg : Lists) :
  InitializePathSubstringLists getenv
    (InitializePathSubstringLists getenv cfg)
  = InitializePathSubstringLists getenv cfg
  /\ (getenv _ignoreGeomPathSubstringEnvVar <> None /\
      getenv _requireGeomPathSubstringEnvVar <> None ->
      forall cfg',
        InitializePathSubstringLists getenv cfg'
        = InitializePathSubstringLists getenv cfg).
Proof.
  unfold InitializePathSubstringLists.
  destruct (getenv _ignoreGeomPathSubstringEnvVar),
    (getenv _requireGeomPathSubstringEnvVar); simpl; split;
    try reflexivity; intros [? ?]; congruence.
Qed.

(** A prim is a valid node exactly when it is a mesh and its path
    passes both stages of the filter; no path makes a prim that is not
    a mesh valid. *)
Theorem IsValidNode_iff `{Arith} (cfg : Lists) (prim : UsdPrim) :
  IsValidNode cfg prim = true <->
  IsMesh prim = true
  /\ (_requireGeomPathSubstring cfg = [] \/
      exists r, In r (_requireGeomPathSubstring cfg) /\
                Str.Substring r (GetPathText prim))
  /\ forall i, In i (_ignoreGeomPathSubstring cfg) ->
               ~ Str.Substring i (GetPathText prim).
Proof.
  unfold IsValidNode. destruct (IsMesh prim); simpl.
  - rewrite PathFilterFacts.TestPath_true. tauto.
  - split; [discriminate | intros [? _]; discriminate].
Qed.

End PathFilterMore.

(** ** How the constructor ends *)

Module RunFacts.

Import CtorFacts ConstructFacts BakingFacts.

Section Logs.

Context `{Arith}.

Lemma LogsOnReturn_ret {A} (a : A) : LogsOnReturn (ret a).
Proof. intros s. reflexivity. Qed.

Lemma LogsOnReturn_trace line : LogsOnReturn (trace line).
Proof. intros s. reflexivity. Qed.

Lemma LogsOnReturn_modify u : LogsOnReturn (modify u).
Proof. intros s. reflexivity. Qed.

Lemma LogsOnReturn_log_and_return {A} line msg :
  LogsOnReturn (@log_and_return _ A line msg).
Proof. intros s. simpl. now exists msg. Qed.

Lemma LogsOnReturn_bind {A B} (m : Ctor A) (k : A -> Ctor B) :
  LogsOnReturn m -> (forall a, LogsOnReturn (k a)) -> LogsOnReturn (bind m k).
Proof.
  intros Hm Hk s. unfold bind. specialize (Hm s).
  destruct (m s) as [[a|] s']; [|exact Hm].
  specialize (Hk a s'). destruct (k a s') as [[b|] s''].
  - congruence.
  - destruct Hk as [msg Hmsg]. exists msg. congruence.
Qed.

End Logs.

Ltac logs :=
  repeat first
    [ apply LogsOnReturn_ret | apply LogsOnReturn_trace
    | apply LogsOnReturn_modify | apply LogsOnReturn_log_and_return
    | apply LogsOnReturn_bind; [|intro]
    | match goal with
      | |- LogsOnReturn (match ?x with _ => _ end) => destruct x
      end ].

Section Runs.

Context `{Arith}.

Variable prim : UsdPrim.
Variable uvSet : string.
Variable frames : list Z.
Variable keepCentered : bool.
Variable model : UsdPrim.
Variable ReadFloat2AsUV : bool.

Lemma readTopology_logs :
  LogsOnReturn (readTopology prim uvSet ReadFloat2AsUV).
Proof.
  unfold readTopology, checkMesh, readFaceVertexIndices,
    readFaceVertexCounts, createFaceSelectionIndices, readUVs, readNormals.
  logs.
Qed.

Lemma bakeFrames_logs fs :
  LogsOnReturn (bakeFrames prim keepCentered model fs).
Proof.
  induction fs as [|x fs IH]; cbn [bakeFrames].
  - apply LogsOnReturn_ret.
  - apply LogsOnReturn_bind; [|intros _; exact IH].
    unfold bakeFrame. logs.
Qed.

Lemma construct_logs :
  LogsOnReturn
    (construct prim uvSet frames keepCentered model ReadFloat2AsUV).
Proof.
  unfold construct, Init, readSubdiv.
  apply LogsOnReturn_bind; [apply LogsOnReturn_modify | intros _].
  apply LogsOnReturn_bind; [apply readTopology_logs | intros _].
  apply LogsOnReturn_bind; [apply bakeFrames_logs | intros _].
  apply LogsOnReturn_modify.
Qed.

(** Every frame readable, the loop stores them all and goes on. *)
Lemma bakeFrames_completes fs s :
  Readable prim fs ->
  bakeFrames prim keepCentered model fs s =
  (Some tt,
   {| this :=
        set_vertices
          (bakedEntries prim keepCentered model fs (m_vertices (this s)))
          (this s);
      log := log s;
      host_trace := host_trace s |}).
Proof.
  revert s; induction fs as [|x fs IH]; intros s Hfs; cbn [bakeFrames].
  - unfold bakedEntries. simpl. rewrite set_vertices_same. now destruct s.
  - unfold bind at 1, bakeFrame at 1. rewrite bakedEntries_cons.
    destruct (Points_Get prim (TimeSample (to_unsigned x))) as [pts|] eqn:Hx.
    + unfold modify. rewrite IH by (intros y Hy; apply Hfs; now right).
      reflexivity.
    + exfalso. apply (Hfs x); [now left | exact Hx].
Qed.

(** The frames are all readable, or there is a first one that is not. *)
Lemma first_unreadable fs :
  Readable prim fs \/
  exists pre f post,
    fs = pre ++ f :: post /\ Readable prim pre /\
    Points_Get prim (TimeSample (to_unsigned f)) = None.
Proof.
  induction fs as [|x fs IH].
  - left. intros x [].
  - destruct (Points_Get prim (TimeSample (to_unsigned x))) as [pts|] eqn:Hx.
    + destruct IH as [Hall|(pre & f & post & -> & Hpre & Hf)].
      * left. intros y [<-|Hy]; [congruence | now apply Hall].
      * right. exists (x :: pre), f, post. repeat split; auto.
        intros y [<-|Hy]; [congruence | now apply Hpre].
    + right. exists [], x, fs. repeat split; auto. intros y [].
Qed.

(** The vertex map of the object built holds the frames of a readable
    prefix of the frames requested. *)
Lemma built_vertices_prefix log0 :
  exists pre post,
    frames = pre ++ post /\ Readable prim pre /\
    m_vertices
      (GeoData_new prim uvSet frames keepCentered model ReadFloat2AsUV log0)
    = bakedEntries prim keepCentered model pre FrameMap.empty.
Proof.
  unfold GeoData_new, construct_new. rewrite construct_start.
  pose proof (readTopology_keeps_vertices prim uvSet ReadFloat2AsUV
                (start log0)) as Hk.
  destruct (readTopology prim uvSet ReadFloat2AsUV (start log0))
    as [[[]|] s1] eqn:Hrun; simpl in Hk.
  - rewrite (bind_ok _ _ _ _ _ Hrun).
    destruct (first_unreadable frames)
      as [Hall|(pre & f & post & Hfs & Hpre & Hf)].
    + exists frames, []. rewrite app_nil_r. repeat split; auto.
      rewrite (bind_ok _ _ _ _ _
                 (bakeFrames_completes frames s1 Hall)).
      rewrite readSubdiv_keeps_vertices. simpl. now rewrite Hk.
    + exists pre, (f :: post). repeat split; auto.
      rewrite Hfs.
      rewrite (bind_stop _ _ _ _
                 (bakeFrames_stops prim keepCentered model pre f post s1
                    Hpre Hf)).
      simpl. now rewrite Hk.
  - exists [], frames. repeat split; [intros x [] |].
    rewrite (bind_stop _ _ _ _ Hrun). simpl. exact Hk.
Qed.

End Runs.

(** The constructor adds nothing to the log collector when it runs to
    its end and one message when it returns before; what the collector
    held is kept in front. *)
Theorem construct_logs_once `{Arith} (prim : UsdPrim) (uvSet : string)
    (frames : list Z) (keepCentered : bool) (model : UsdPrim)
    (ReadFloat2AsUV : bool) (log0 : list string) :
  let r := construct prim uvSet frames keepCentered model ReadFloat2AsUV
             (start log0) in
  match fst r with
  | Some _ => log (snd r) = log0
  | None => exists msg, log (snd r) = log0 ++ [msg]
  end.
Proof.
  intros r. subst r.
  pose proof (construct_logs prim uvSet frames keepCentered model
                ReadFloat2AsUV (start log0)) as Hl.
  destruct (construct prim uvSet frames keepCentered model ReadFloat2AsUV
              (start log0)) as [[[]|] s]; exact Hl.
Qed.

End RunFacts.

(** ** Constructions that run to their end *)

Module CompletionFacts.

Import CtorFacts ConstructFacts BakingFacts RunFacts.

Section Completion.

Context `{Arith}.

Variable prim : UsdPrim.
Variable uvSet : string.
Variable frames : list Z.
Variable keepCentered : bool.
Variable model : UsdPrim.
Variable ReadFloat2AsUV : bool.

Lemma readUVs_succeeds s :
  fst (readUVs prim uvSet ReadFloat2AsUV s) = Some tt <->
  UvSetReadable prim uvSet ReadFloat2AsUV.
Proof.
  unfold readUVs, UvSetReadable. destruct uvSet as [|c u].
  - simpl. split; [now left | reflexivity].
  - cbn [String.length Nat.ltb Nat.leb].
    destruct (GetPrimvar prim (String c u)) as [pv|].
    + destruct (uvAccepted ReadFloat2AsUV pv) eqn:Hacc.
      * destruct (Get pv EarliestTime) as [values|] eqn:Hval.
        -- split.
           ++ intros _. right. exists pv. repeat split; auto; congruence.
           ++ intros _. destruct (GetIndices pv (topologyTime prim));
                reflexivity.
        -- split; [discriminate|].
           intros [Hs|(pv' & Hpv & _ & Hv)]; [discriminate|].
           injection Hpv as <-. contradiction.
      * split; [discriminate|].
        intros [Hs|(pv' & Hpv & Ha & _)]; [discriminate|].
        injection Hpv as <-. congruence.
    + split; [discriminate|].
      intros [Hs|(pv' & Hpv & _)]; discriminate.
Qed.

Lemma readTopology_succeeds s :
  fst (readTopology prim uvSet ReadFloat2AsUV s) = Some tt <->
  TopologyReadable prim uvSet ReadFloat2AsUV.
Proof.
  unfold TopologyReadable, readTopology.
  unfold bind at 1. rewrite checkMesh_run.
  destruct (IsMesh prim); [|simpl; split; [discriminate | now intros [? _]]].
  unfold bind at 1, trace at 1. unfold bind at 1, trace at 1.
  unfold bind at 1, readFaceVertexIndices.
  destruct (FaceVertexIndices_Get prim (topologyTime prim)) as [a|];
    [|simpl; split; [discriminate | now intros (_ & ? & _)]].
  unfold modify at 1. unfold bind at 1, readFaceVertexCounts.
  destruct (FaceVertexCounts_Get prim (topologyTime prim)) as [b|];
    [|simpl; split; [discriminate | now intros (_ & _ & ? & _)]].
  unfold modify at 1.
  unfold bind at 1, createFaceSelectionIndices at 1, modify at 1.
  match goal with
  | |- fst (bind _ _ ?s5) = _ <-> _ =>
      pose proof (readUVs_succeeds s5) as Huv; unfold bind;
      destruct (readUVs prim uvSet ReadFloat2AsUV s5) as [[[]|] s6]
  end; simpl in Huv.
  - assert (Hn : fst (readNormals prim s6) = Some tt).
    { unfold readNormals. now destruct (Normals_Get prim (topologyTime prim)). }
    rewrite Hn. split; [intros _ | reflexivity].
    repeat split; try discriminate. now apply Huv.
  - simpl. split; [discriminate | intros (_ & _ & _ & Hu)].
    now apply Huv in Hu.
Qed.

(** The constructor runs to its end exactly when the topology and
    every frame can be read. *)
Lemma construct_completes_iff log0 :
  fst (construct prim uvSet frames keepCentered model ReadFloat2AsUV
         (start log0)) = Some tt <->
  TopologyReadable prim uvSet ReadFloat2AsUV /\ Readable prim frames.
Proof.
  rewrite construct_start, <- (readTopology_succeeds (start log0)).
  destruct (readTopology prim uvSet ReadFloat2AsUV (start log0))
    as [[[]|] s1] eqn:Hrun.
  - rewrite (bind_ok _ _ _ _ _ Hrun). simpl.
    destruct (first_unreadable prim frames)
      as [Hall|(pre & f & post & Hfs & Hpre & Hf)].
    + rewrite (bind_ok _ _ _ _ _
                 (bakeFrames_completes prim keepCentered model frames s1
                    Hall)).
      simpl. tauto.
    + rewrite Hfs at 1.
      rewrite (bind_stop _ _ _ _
                 (bakeFrames_stops prim keepCentered model pre f post s1
                    Hpre Hf)).
      simpl. split; [discriminate | intros [_ Hall]].
      exfalso. apply (Hall f); [|exact Hf].
      rewrite Hfs. apply in_or_app. right. now left.
  - rewrite (bind_stop _ _ _ _ Hrun). simpl.
    split; [discriminate | now intros [? _]].
Qed.

Lemma built_vertices_complete log0 :
  TopologyReadable prim uvSet ReadFloat2AsUV -> Readable prim frames ->
  m_vertices
    (GeoData_new prim uvSet frames keepCentered model ReadFloat2AsUV log0)
  = bakedEntries prim keepCentered model frames FrameMap.empty.
Proof.
  intros Htop Hall. unfold GeoData_new, construct_new.
  rewrite construct_start.
  apply (readTopology_succeeds (start log0)) in Htop.
  pose proof (readTopology_keeps_vertices prim uvSet ReadFloat2AsUV
                (start log0)) as Hk.
  destruct (readTopology prim uvSet ReadFloat2AsUV (start log0))
    as [[[]|] s1] eqn:Hrun; [|discriminate Htop].
  simpl in Hk.
  rewrite (bind_ok _ _ _ _ _ Hrun).
  rewrite (bind_ok _ _ _ _ _
             (bakeFrames_completes prim keepCentered model frames s1 Hall)).
  rewrite readSubdiv_keeps_vertices. simpl. now rewrite Hk.
Qed.

Lemma built_vertices_nonempty log0 :
  m_vertices
    (GeoData_new prim uvSet frames keepCentered model ReadFloat2AsUV log0)
  <> [] ->
  TopologyReadable prim uvSet ReadFloat2AsUV.
Proof.
  intros Hne. apply (readTopology_succeeds (start log0)).
  pose proof (readTopology_keeps_vertices prim uvSet ReadFloat2AsUV
                (start log0)) as Hk.
  destruct (readTopology prim uvSet ReadFloat2AsUV (start log0))
    as [[[]|] s1] eqn:Hrun; [reflexivity|]. simpl in Hk.
  exfalso. apply Hne. unfold GeoData_new, construct_new.
  rewrite construct_start, (bind_stop _ _ _ _ Hrun). simpl. exact Hk.
Qed.

End Completion.

End CompletionFacts.

(** ** The frames of the object built *)

Module VerticesFacts.

Import CtorFacts ConstructFacts BakingFacts RunFacts CompletionFacts.

Lemma to_unsigned_range (x : Z) : 0 <= to_unsigned x < 2 ^ 32.
Proof. unfold to_unsigned. apply Z.mod_pos_bound. lia. Qed.

(** Two frame samples that share a key are the same. *)
Lemma frameKey_inj (u v : Z) :
  0 <= u < 2 ^ 32 -> 0 <= v < 2 ^ 32 -> frameKey u = frameKey v -> u = v.
Proof.
  intros Hu Hv. unfold frameKey, to_int. rewrite !Z.mod_small by assumption.
  destruct (u <? 2 ^ 31) eqn:H1, (v <? 2 ^ 31) eqn:H2;
    try apply Z.ltb_lt in H1; try apply Z.ltb_ge in H1;
    try apply Z.ltb_lt in H2; try apply Z.ltb_ge in H2; lia.
Qed.

Section Vertices.

Context `{Arith}.

Variable prim : UsdPrim.
Variable keepCentered : bool.
Variable model : UsdPrim.

Lemma flatten3_length (l : list (float * float * float)) :
  List.length (flatten3 l) = (3 * List.length l)%nat.
Proof.
  unfold flatten3. induction l as [|p l IH]; simpl; [reflexivity|].
  rewrite IH. lia.
Qed.

Lemma flatten2_length (l : list (float * float)) :
  List.length (flatten2 l) = (2 * List.length l)%nat.
Proof.
  unfold flatten2. induction l as [|p l IH]; simpl; [reflexivity|].
  rewrite IH. lia.
Qed.

(** Transforming the points in place keeps their number. *)
Lemma xformPoints_length (fullXform : GfMatrix4d) (points : list float) :
  List.length (xformPoints fullXform points) = List.length points.
Proof.
  revert points. fix IH 1. intros [|x [|y [|z rest]]]; try reflexivity.
  cbn [xformPoints].
  destruct (vec_mul_mat (to_double x, to_double y, to_double z, one)
              fullXform) as [[[p0 p1] p2] p3].
  simpl. now rewrite IH.
Qed.

Lemma bakePoints_length frameSample pointsVt :
  List.length (bakePoints prim keepCentered model frameSample pointsVt)
  = (3 * List.length pointsVt)%nat.
Proof.
  unfold bakePoints.
  destruct (mat_neq (frameXform prim keepCentered model frameSample)
              IDENTITY);
    now rewrite ?xformPoints_length, flatten3_length.
Qed.

Lemma bakedEntries_app fs1 fs2 m :
  bakedEntries prim keepCentered model (fs1 ++ fs2) m =
  bakedEntries prim keepCentered model fs2
    (bakedEntries prim keepCentered model fs1 m).
Proof. unfold bakedEntries. apply fold_left_app. Qed.

(** The entry of a frame gone through is its baked array, whatever
    frames came before and after it. *)
Lemma bakedEntries_lookup fs m x pointsVt :
  In x fs ->
  Points_Get prim (TimeSample (to_unsigned x)) = Some pointsVt ->
  FrameMap.find (frameKey (to_unsigned x))
    (bakedEntries prim keepCentered model fs m)
  = Some (bakePoints prim keepCentered model (to_unsigned x) pointsVt).
Proof.
  intros Hin Hx. revert Hin.
  induction fs as [|y fs' IH] using rev_ind; [intros []|].
  rewrite bakedEntries_app, bakedEntries_cons. unfold bakedEntries at 1.
  cbn [fold_left]. intros Hin. apply in_app_or in Hin.
  destruct (Points_Get prim (TimeSample (to_unsigned y))) as [ptsy|] eqn:Hy.
  - rewrite FrameMapFacts.find_insert.
    destruct (frameKey (to_unsigned x) =? frameKey (to_unsigned y)) eqn:Hk.
    + apply Z.eqb_eq in Hk.
      apply frameKey_inj in Hk; try apply to_unsigned_range.
      rewrite <- Hk in Hy |- *. congruence.
    + apply Z.eqb_neq in Hk. apply IH.
      destruct Hin as [Hin|[<-|[]]]; [assumption | congruence].
  - apply IH. destruct Hin as [Hin|[<-|[]]]; [assumption | congruence].
Qed.

End Vertices.

(** After a construction that ran to its end, [GetVertices] at a
    requested frame number whose point array is not empty returns a
    pointer to the points read at that frame, baked with that frame's
    transform: three floats for each point. *)
Theorem GetVertices_requested_frame `{Arith} (prim : UsdPrim)
    (uvSet : string) (frames : list Z) (keepCentered : bool)
    (model : UsdPrim) (ReadFloat2AsUV : bool) (log0 : list string)
    (x : Z) (pointsVt : list (float * float * float)) :
  TopologyReadable prim uvSet ReadFloat2AsUV ->
  Readable prim frames ->
  In x frames ->
  - 2 ^ 31 <= x < 2 ^ 31 ->
  Points_Get prim (TimeSample (to_unsigned x)) = Some pointsVt ->
  pointsVt <> [] ->
  exists first rest,
    bakePoints prim keepCentered model (to_unsigned x) pointsVt
    = first :: rest
    /\ List.length (first :: rest) = (3 * List.length pointsVt)%nat
    /\ GetVertices
         (GeoData_new prim uvSet frames keepCentered model ReadFloat2AsUV
            log0) x
       = PointerTo first rest.
Proof.
  intros Htop Hall Hin Hx Hpts Hne.
  pose proof (bakePoints_length prim keepCentered model (to_unsigned x)
                pointsVt) as Hlen.
  destruct (bakePoints prim keepCentered model (to_unsigned x) pointsVt)
    as [|first rest] eqn:Hbaked.
  - destruct pointsVt; [contradiction | discriminate Hlen].
  - exists first, rest. split; [reflexivity|]. split; [exact Hlen|].
    unfold GetVertices.
    rewrite (built_vertices_complete prim uvSet frames keepCentered model
               ReadFloat2AsUV log0 Htop Hall).
    pose proof (bakedEntries_lookup prim keepCentered model frames
                  FrameMap.empty x pointsVt Hin Hpts) as Hfind.
    rewrite (frameKey_to_unsigned x Hx), Hbaked in Hfind. rewrite Hfind.
    destruct (bakedEntries prim keepCentered model frames FrameMap.empty);
      [discriminate Hfind | reflexivity].
Qed.

Lemma GetVertices_requested_frame_witness :
  exists first rest,
    bakePoints Samples.creasedTriangle false Samples.creasedTriangle
      (to_unsigned 2) Scene.trianglePoints
    = first :: rest
    /\ List.length (first :: rest)
       = (3 * List.length Scene.trianglePoints)%nat
    /\ GetVertices
         (GeoData_new Samples.creasedTriangle "" [1; 2] false
            Samples.creasedTriangle true []) 2
       = PointerTo first rest.
Proof.
  apply (GetVertices_requested_frame Samples.creasedTriangle "" [1; 2]
           false Samples.creasedTriangle true [] 2 Scene.trianglePoints).
  - repeat split; try discriminate. now left.
  - intros x Hx. discriminate.
  - simpl. tauto.
  - lia.
  - reflexivity.
  - discriminate.
Defined.

(** Every entry of the vertex map of an object built, however the
    construction ended, is the baked array of a requested frame whose
    points could be read: three floats for each point read. *)
Theorem vertices_entries_are_baked_frames `{Arith} (prim : UsdPrim)
    (uvSet : string) (frames : list Z) (keepCentered : bool)
    (model : UsdPrim) (ReadFloat2AsUV : bool) (log0 : list string)
    (k : Z) (v : list float) :
  FrameMap.find k
    (m_vertices
       (GeoData_new prim uvSet frames keepCentered model ReadFloat2AsUV
          log0)) = Some v ->
  exists x pointsVt,
    In x frames /\ frameKey (to_unsigned x) = k /\
    Points_Get prim (TimeSample (to_unsigned x)) = Some pointsVt /\
    v = bakePoints prim keepCentered model (to_unsigned x) pointsVt /\
    List.length v = (3 * List.length pointsVt)%nat.
Proof.
  destruct (built_vertices_prefix prim uvSet frames keepCentered model
              ReadFloat2AsUV log0) as (pre & post & Hfs & _ & ->).
  intros Hfind.
  destruct (bakedEntries_find _ _ _ _ _ _ _ Hfind)
    as [Hnone|(x & pts & Hin & Hk & Hp & Hv)]; [discriminate Hnone|].
  exists x, pts. repeat split; auto.
  - rewrite Hfs. apply in_or_app. now left.
  - rewrite Hv. apply bakePoints_length.
Qed.

Lemma vertices_entries_are_baked_frames_witness :
  exists x pointsVt,
    In x [1; 2] /\ frameKey (to_unsigned x) = 2 /\
    Points_Get Samples.creasedTriangle (TimeSample (to_unsigned x))
    = Some pointsVt /\
    [1; 2; 3; 2; 2; 3; 1; 3; 3]
    = bakePoints Samples.creasedTriangle false Samples.creasedTriangle
        (to_unsigned x) pointsVt /\
    List.length [1; 2; 3; 2; 2; 3; 1; 3; 3] = (3 * List.length pointsVt)%nat.
Proof.
  apply (vertices_entries_are_baked_frames Samples.creasedTriangle ""
           [1; 2] false Samples.creasedTriangle true [] 2
           [1; 2; 3; 2; 2; 3; 1; 3; 3]).
  reflexivity.
Defined.

(** A snapshot is boolean-true only if the prim is a mesh whose
    topology and UV set could be read and the first of the requested
    frames could be read: with no frame requested, or after a return
    before the frames, the snapshot is boolean-false. *)
Theorem operator_bool_needs_first_frame `{Arith} (prim : UsdPrim)
    (uvSet : string) (frames : list Z) (keepCentered : bool)
    (model : UsdPrim) (ReadFloat2AsUV : bool) (log0 : list string) :
  operator_bool
    (GeoData_new prim uvSet frames keepCentered model ReadFloat2AsUV log0)
  = true ->
  TopologyReadable prim uvSet ReadFloat2AsUV
  /\ exists x rest,
       frames = x :: rest
       /\ Points_Get prim (TimeSample (to_unsigned x)) <> None.
Proof.
  intros Hok. apply ValidityFacts.operator_bool_begin in Hok.
  destruct Hok as [_ (k & v & Hb & _)].
  assert (Hne : m_vertices
                  (GeoData_new prim uvSet frames keepCentered model
                     ReadFloat2AsUV log0) <> [])
    by (intros He; rewrite He in Hb; discriminate Hb).
  split; [now apply built_vertices_nonempty in Hne|].
  destruct (built_vertices_prefix prim uvSet frames keepCentered model
              ReadFloat2AsUV log0) as (pre & post & Hfs & Hpre & Hv).
  destruct pre as [|x pre]; [now rewrite Hv in Hne|].
  exists x, (pre ++ post). split; [exact Hfs|]. apply Hpre. now left.
Qed.

Lemma operator_bool_needs_first_frame_witness :
  TopologyReadable Scene.triangle "" true
  /\ exists x rest,
       [1] = x :: rest
       /\ Points_Get Scene.triangle (TimeSample (to_unsigned x)) <> None.
Proof.
  apply (operator_bool_needs_first_frame Scene.triangle "" [1] false
           Scene.triangle true []).
  reflexivity.
Defined.

(** The constructor runs to its end exactly when the prim is a mesh
    whose topology, UV set and every requested frame can be read, and
    that is exactly when it leaves the log collector as it found it. *)
Theorem construct_completes_when_readable `{Arith} (prim : UsdPrim)
    (uvSet : string) (frames : list Z) (keepCentered : bool)
    (model : UsdPrim) (ReadFloat2AsUV : bool) (log0 : list string) :
  let r := construct prim uvSet frames keepCentered model ReadFloat2AsUV
             (start log0) in
  (fst r = Some tt <->
   TopologyReadable prim uvSet ReadFloat2AsUV /\ Readable prim frames)
  /\ (log (snd r) = log0 <-> fst r = Some tt).
Proof.
  intros r. split; [apply construct_completes_iff|].
  pose proof (construct_logs prim uvSet frames keepCentered model
                ReadFloat2AsUV (start log0)) as Hl.
  fold r in Hl. destruct r as [[[]|] s]; simpl in *.
  - tauto.
  - destruct Hl as [msg Hmsg]. split; [|discriminate].
    intros He. rewrite He in Hmsg.
    apply (f_equal (@List.length string)) in Hmsg.
    rewrite length_app in Hmsg. simpl in Hmsg. lia.
Qed.

Section Centering.

Context `{Arith}.

Variable prim : UsdPrim.
Variable model model' : UsdPrim.

Lemma bakeFrames_not_centered fs s :
  bakeFrames prim false model fs s = bakeFrames prim false model' fs s.
Proof.
  revert s; induction fs as [|x fs IH]; intros s; cbn [bakeFrames].
  - reflexivity.
  - unfold bind.
    change (bakeFrame prim false model' x s)
      with (bakeFrame prim false model x s).
    destruct (bakeFrame prim false model x s) as [[[]|] s'];
      [apply IH | reflexivity].
Qed.

End Centering.

(** When centering is not asked for, the reference prim is not read:
    the object built is the same whatever that prim is. *)
Theorem not_centered_ignores_model `{Arith} (prim : UsdPrim)
    (uvSet : string) (frames : list Z) (model model' : UsdPrim)
    (ReadFloat2AsUV : bool) (log0 : list string) :
  construct_new prim uvSet frames false model ReadFloat2AsUV log0
  = construct_new prim uvSet frames false model' ReadFloat2AsUV log0.
Proof.
  unfold construct_new. rewrite !construct_start.
  unfold bind at 1 3.
  destruct (readTopology prim uvSet ReadFloat2AsUV (start log0))
    as [[[]|] s1]; [|reflexivity].
  unfold bind. now rewrite (bakeFrames_not_centered prim model model').
Qed.

End VerticesFacts.

(** ** Face selection, UVs and normals of the object built *)

Module AttributeFacts.

Import CtorFacts ConstructFacts BakingFacts RunFacts CompletionFacts
  VerticesFacts.

Section Attributes.

Context `{Arith}.

Variable prim : UsdPrim.
Variable uvSet : string.
Variable frames : list Z.
Variable keepCentered : bool.
Variable model : UsdPrim.
Variable ReadFloat2AsUV : bool.

(** The constructor up to the face selection indices, when it gets
    that far. *)
Lemma construct_selection log0 a b :
  IsMesh prim = true ->
  FaceVertexIndices_Get prim (topologyTime prim) = Some a ->
  FaceVertexCounts_Get prim (topologyTime prim) = Some b ->
  construct prim uvSet frames keepCentered model ReadFloat2AsUV (start log0)
  = bind (readUVs prim uvSet ReadFloat2AsUV)
      (fun _ =>
         bind (readNormals prim)
           (fun _ =>
              bind (bakeFrames prim keepCentered model frames)
                (fun _ => readSubdiv prim)))
      {| this :=
           set_faceSelectionIndices (iota (List.length b))
             (set_faceCounts b (set_vertexIndices a fresh));
         log := log0;
         host_trace := [94; 95]%nat |}.
Proof.
  intros Hm Ha Hb.
  rewrite (construct_counts prim uvSet frames keepCentered model
             ReadFloat2AsUV log0 a b Hm Ha Hb).
  rewrite bind_assoc.
  unfold bind at 1, createFaceSelectionIndices at 1, modify at 1.
  rewrite bind_assoc. reflexivity.
Qed.

(** What follows the normals keeps a member that neither the baking nor
    the subdivision phase assigns. *)
Lemma after_normals_keeps {X} (f : GeoData -> X) :
  (forall v g, f (set_normals v g) = f g) ->
  (forall v g, f (set_normalIndices v g) = f g) ->
  (forall v g, f (set_vertices v g) = f g) ->
  Keeps f (readSubdiv prim) ->
  Keeps f
    (bind (readNormals prim)
       (fun _ =>
          bind (bakeFrames prim keepCentered model frames)
            (fun _ => readSubdiv prim))).
Proof.
  intros H1 H2 H3 Hs.
  apply Keeps_bind; [|intros _; now apply finish_keeps].
  unfold readNormals.
  destruct (Normals_Get prim (topologyTime prim)); [|apply Keeps_ret].
  apply Keeps_bind; [|intros _]; apply Keeps_modify; auto.
Qed.

Lemma readUVs_keeps {X} (f : GeoData -> X) :
  (forall v g, f (set_uvIndices v g) = f g) ->
  (forall v g, f (set_uvs v g) = f g) ->
  Keeps f (readUVs prim uvSet ReadFloat2AsUV).
Proof.
  intros H1 H2. unfold readUVs.
  repeat first
    [ apply Keeps_ret | apply Keeps_log_and_return
    | apply Keeps_bind; [|intro]
    | apply Keeps_modify; intro; auto
    | match goal with
      | |- Keeps _ (match ?x with _ => _ end) => destruct x
      end ].
Qed.

Lemma readSubdiv_keeps_faceSelectionIndices :
  Keeps m_faceSelectionIndices (readSubdiv prim).
Proof.
  now apply (readSubdiv_keeps_member _ _ (fun '(_, _, x, _, _, _, _, _) => x)).
Qed.

Lemma readSubdiv_keeps_normals : Keeps m_normals (readSubdiv prim).
Proof.
  now apply (readSubdiv_keeps_member _ _ (fun '(_, _, _, _, _, x, _, _) => x)).
Qed.

Lemma readSubdiv_keeps_normalIndices :
  Keeps m_normalIndices (readSubdiv prim).
Proof.
  now apply (readSubdiv_keeps_member _ _ (fun '(_, _, _, _, x, _, _, _) => x)).
Qed.

End Attributes.

(** [faceSelectionIndices] always numbers the faces: it is 0, 1, ...,
    one less than the number of face counts, however the construction
    ended. *)
Theorem faceSelectionIndices_identity `{Arith} (prim : UsdPrim)
    (uvSet : string) (frames : list Z) (keepCentered : bool)
    (model : UsdPrim) (ReadFloat2AsUV : bool) (log0 : list string) :
  let g := GeoData_new prim uvSet frames keepCentered model ReadFloat2AsUV
             log0 in
  m_faceSelectionIndices g = iota (List.length (m_faceCounts g)).
Proof.
  intros g. subst g.
  destruct (IsMesh prim) eqn:Hm.
  - destruct (FaceVertexIndices_Get prim (topologyTime prim)) as [a|] eqn:Ha.
    + destruct (FaceVertexCounts_Get prim (topologyTime prim))
        as [b|] eqn:Hb.
      * destruct (built_counts prim uvSet frames keepCentered model
                    ReadFloat2AsUV log0 a b Hm Ha Hb) as [_ ->].
        unfold GeoData_new, construct_new.
        rewrite (construct_selection prim uvSet frames keepCentered model
                   ReadFloat2AsUV log0 a b Hm Ha Hb).
        rewrite Keeps_bind; [reflexivity | now apply readUVs_keeps |].
        intros _. apply after_normals_keeps; auto.
        apply readSubdiv_keeps_faceSelectionIndices.
      * now rewrite (built_no_counts prim uvSet frames keepCentered model
                       ReadFloat2AsUV log0 a Hm Ha Hb).
    + now rewrite (built_no_indices prim uvSet frames keepCentered model
                     ReadFloat2AsUV log0 Hm Ha).
  - now rewrite (built_not_mesh prim uvSet frames keepCentered model
                   ReadFloat2AsUV log0 Hm).
Qed.

(** The UV data of an accepted, readable UV set: [uvs] holds the two
    coordinates of each value read at the earliest time, in order, and
    [uvIndices] is the primvar's index array when it has one and
    0, 1, ... over the vertex indices otherwise. *)
Theorem uv_data_stored `{Arith} (prim : UsdPrim) (uvSet : string)
    (frames : list Z) (keepCentered : bool) (model : UsdPrim)
    (ReadFloat2AsUV : bool) (log0 : list string)
    (a b : list Z) (uvPrimvar : UsdGeomPrimvar)
    (values : list (float * float)) :
  IsMesh prim = true ->
  FaceVertexIndices_Get prim (topologyTime prim) = Some a ->
  FaceVertexCounts_Get prim (topologyTime prim) = Some b ->
  uvSet <> "" ->
  GetPrimvar prim uvSet = Some uvPrimvar ->
  uvAccepted ReadFloat2AsUV uvPrimvar = true ->
  Get uvPrimvar EarliestTime = Some values ->
  let g := GeoData_new prim uvSet frames keepCentered model ReadFloat2AsUV
             log0 in
  m_uvs g = flatten2 values
  /\ List.length (m_uvs g) = (2 * List.length values)%nat
  /\ m_uvIndices g =
     match GetIndices uvPrimvar (topologyTime prim) with
     | Some indices => indices
     | None => iota (List.length a)
     end.
Proof.
  intros Hm Ha Hb Hset Hpv Hacc Hval g.
  assert (Hrun : forall s,
    readUVs prim uvSet ReadFloat2AsUV s =
    (Some tt,
     update_this (set_uvs (flatten2 values))
       (update_this
          (fun g0 =>
             set_uvIndices
               match GetIndices uvPrimvar (topologyTime prim) with
               | Some indices => indices
               | None =>
                   m_uvIndices g0 ++ iota (List.length (m_vertexIndices g0))
               end g0) s))).
  { intros s. unfold readUVs. rewrite Hpv, Hacc, Hval.
    destruct uvSet; [contradiction|]. cbn [String.length Nat.ltb Nat.leb].
    now destruct (GetIndices uvPrimvar (topologyTime prim)). }
  assert (Huvs : m_uvs g = flatten2 values).
  { subst g. unfold GeoData_new, construct_new.
    rewrite (construct_selection prim uvSet frames keepCentered model
               ReadFloat2AsUV log0 a b Hm Ha Hb).
    rewrite Keeps_after.
    - now rewrite Hrun.
    - intros _. apply after_normals_keeps; auto.
      apply readSubdiv_keeps_uvs. }
  split; [exact Huvs|]. split; [rewrite Huvs; apply flatten2_length|].
  subst g. unfold GeoData_new, construct_new.
  rewrite (construct_selection prim uvSet frames keepCentered model
             ReadFloat2AsUV log0 a b Hm Ha Hb).
  rewrite Keeps_after.
  - rewrite Hrun. simpl.
    now destruct (GetIndices uvPrimvar (topologyTime prim)).
  - intros _. apply after_normals_keeps; auto.
    apply readSubdiv_keeps_uvIndices.
Qed.

Lemma uv_data_stored_witness :
  let g := GeoData_new Samples.indexedTriangle "st" [1] false
             Samples.indexedTriangle true [] in
  m_uvs g = @flatten2 Scene.integers [(0, 0); (1, 1)]
  /\ List.length (m_uvs g) = (2 * List.length [(0, 0); (1, 1)])%nat
  /\ m_uvIndices g =
     match GetIndices Samples.indexedSt
             (topologyTime Samples.indexedTriangle) with
     | Some indices => indices
     | None => iota (List.length [0; 1; 2])
     end.
Proof.
  apply (uv_data_stored Samples.indexedTriangle "st" [1] false
           Samples.indexedTriangle true [] [0; 1; 2] [3] Samples.indexedSt
           [(0, 0); (1, 1)]);
    try reflexivity.
  discriminate.
Defined.

(** A UV set that is requested and cannot be used (no such primvar, a
    type or interpolation that is not accepted, values that cannot be
    read) stops the constructor after the topology: the snapshot keeps
    the topology read, holds no UV, normal or vertex, is boolean-false,
    and one message naming the prim is logged. *)
Theorem unusable_uv_set_keeps_topology `{Arith} (prim : UsdPrim)
    (uvSet : string) (frames : list Z) (keepCentered : bool)
    (model : UsdPrim) (ReadFloat2AsUV : bool) (log0 : list string)
    (a b : list Z) :
  IsMesh prim = true ->
  FaceVertexIndices_Get prim (topologyTime prim) = Some a ->
  FaceVertexCounts_Get prim (topologyTime prim) = Some b ->
  ~ UvSetReadable prim uvSet ReadFloat2AsUV ->
  let s := construct_new prim uvSet frames keepCentered model
             ReadFloat2AsUV log0 in
  this s =
    set_faceSelectionIndices (iota (List.length b))
      (set_faceCounts b (set_vertexIndices a fresh))
  /\ operator_bool (this s) = false
  /\ exists msg,
       log s = log0 ++ [msg]
       /\ In msg
            [("Discarding invalid uv set " ++ uvSet ++ " on "
              ++ GetPathText prim)%string;
             ("Discarding because Vertex or Facevarying interpolation is not defined for the "
              ++ uvSet ++ " uv set on " ++ GetPathText prim)%string;
             ("discarding because could not read uvs on "
              ++ GetPathText prim)%string].
Proof.
  intros Hm Ha Hb Hno s. subst s. unfold construct_new.
  rewrite (construct_selection prim uvSet frames keepCentered model
             ReadFloat2AsUV log0 a b Hm Ha Hb).
  unfold bind at 1.
  match goal with
  | |- context [readUVs _ _ _ ?s5] =>
      pose proof (readUVs_succeeds prim uvSet ReadFloat2AsUV s5) as Hs
  end.
  unfold readUVs in *.
  destruct (0 <? String.length uvSet)%nat;
    [|exfalso; apply Hno, Hs; reflexivity].
  destruct (GetPrimvar prim uvSet) as [pv|].
  - destruct (uvAccepted ReadFloat2AsUV pv).
    + destruct (Get pv EarliestTime) as [values|].
      * exfalso. apply Hno, Hs.
        now destruct (GetIndices pv (topologyTime prim)).
      * simpl. repeat split. eexists. split; [reflexivity|].
        simpl. tauto.
    + simpl. repeat split. eexists. split; [reflexivity|].
      simpl. tauto.
  - simpl. repeat split. eexists. split; [reflexivity|]. simpl. tauto.
Qed.

Lemma unusable_uv_set_keeps_topology_witness :
  let s := construct_new Scene.triangle "st" [1] false Scene.triangle
             true [] in
  this s =
    set_faceSelectionIndices (iota (List.length [3]))
      (set_faceCounts [3] (set_vertexIndices [0; 1; 2] fresh))
  /\ operator_bool (this s) = false
  /\ exists msg,
       log s = [] ++ [msg]
       /\ In msg
            [("Discarding invalid uv set " ++ "st" ++ " on "
              ++ GetPathText Scene.triangle)%string;
             ("Discarding because Vertex or Facevarying interpolation is not defined for the "
              ++ "st" ++ " uv set on " ++ GetPathText Scene.triangle)%string;
             ("discarding because could not read uvs on "
              ++ GetPathText Scene.triangle)%string].
Proof.
  apply (unusable_uv_set_keeps_topology Scene.triangle "st" [1] false
           Scene.triangle true [] [0; 1; 2] [3]); try reflexivity.
  intros [Hs|(pv & Hpv & _)]; discriminate.
Defined.

(** Normals never stop the constructor: either none are stored, with
    no normal index, or the normals read at the topology time are
    stored, three floats each, with the indices 0, 1, ... over the
    vertex indices. *)
Theorem normals_optional `{Arith} (prim : UsdPrim) (uvSet : string)
    (frames : list Z) (keepCentered : bool) (model : UsdPrim)
    (ReadFloat2AsUV : bool) (log0 : list string) :
  let g := GeoData_new prim uvSet frames keepCentered model ReadFloat2AsUV
             log0 in
  (m_normals g = [] /\ m_normalIndices g = [])
  \/ exists normalsVt,
       Normals_Get prim (topologyTime prim) = Some normalsVt
       /\ m_normals g = flatten3 normalsVt
       /\ List.length (m_normals g) = (3 * List.length normalsVt)%nat
       /\ m_normalIndices g = iota (List.length (m_vertexIndices g)).
Proof.
  intros g. subst g.
  destruct (IsMesh prim) eqn:Hm;
    [|left; now rewrite (built_not_mesh prim uvSet frames keepCentered
                           model ReadFloat2AsUV log0 Hm)].
  destruct (FaceVertexIndices_Get prim (topologyTime prim)) as [a|] eqn:Ha;
    [|left; now rewrite (built_no_indices prim uvSet frames keepCentered
                           model ReadFloat2AsUV log0 Hm Ha)].
  destruct (FaceVertexCounts_Get prim (topologyTime prim)) as [b|] eqn:Hb;
    [|left; now rewrite (built_no_counts prim uvSet frames keepCentered
                           model ReadFloat2AsUV log0 a Hm Ha Hb)].
  destruct (built_counts prim uvSet frames keepCentered model
              ReadFloat2AsUV log0 a b Hm Ha Hb) as [Hva _].
  rewrite Hva. unfold GeoData_new, construct_new.
  rewrite (construct_selection prim uvSet frames keepCentered model
             ReadFloat2AsUV log0 a b Hm Ha Hb).
  match goal with
  | |- context [bind (readUVs _ _ _) _ ?s5] =>
      pose proof (readUVs_keeps prim uvSet ReadFloat2AsUV m_normals
                    (fun _ _ => eq_refl) (fun _ _ => eq_refl) s5) as Kn;
      pose proof (readUVs_keeps prim uvSet ReadFloat2AsUV m_normalIndices
                    (fun _ _ => eq_refl) (fun _ _ => eq_refl) s5) as Ki;
      pose proof (readUVs_keeps prim uvSet ReadFloat2AsUV m_vertexIndices
                    (fun _ _ => eq_refl) (fun _ _ => eq_refl) s5) as Kv;
      destruct (readUVs prim uvSet ReadFloat2AsUV s5) as [[[]|] s6] eqn:Huv
  end; simpl in Kn, Ki, Kv.
  - rewrite (bind_ok _ _ _ _ _ Huv).
    assert (Hnorm : forall s,
              m_normals
                (this (snd (bind (bakeFrames prim keepCentered model frames)
                              (fun _ => readSubdiv prim) s)))
              = m_normals (this s))
      by (apply finish_keeps; [reflexivity|];
          apply readSubdiv_keeps_normals).
    assert (Hidx : forall s,
              m_normalIndices
                (this (snd (bind (bakeFrames prim keepCentered model frames)
                              (fun _ => readSubdiv prim) s)))
              = m_normalIndices (this s))
      by (apply finish_keeps; [reflexivity|];
          apply readSubdiv_keeps_normalIndices).
    destruct (Normals_Get prim (topologyTime prim)) as [normalsVt|] eqn:Hn.
    + right. exists normalsVt. split; [reflexivity|].
      assert (Hrn : readNormals prim s6 =
                (Some tt,
                 update_this
                   (fun g =>
                      set_normalIndices
                        (m_normalIndices g
                         ++ iota (List.length (m_vertexIndices g))) g)
                   (update_this (set_normals (flatten3 normalsVt)) s6)))
        by (unfold readNormals; now rewrite Hn).
      rewrite (bind_ok _ _ _ _ _ Hrn), Hnorm, Hidx. simpl.
      rewrite Ki, Kv. repeat split. apply flatten3_length.
    + left.
      assert (Hrn : readNormals prim s6 = (Some tt, s6))
        by (unfold readNormals; now rewrite Hn).
      rewrite (bind_ok _ _ _ _ _ Hrn), Hnorm, Hidx. now rewrite Kn, Ki.
  - left. rewrite (bind_stop _ _ _ _ Huv). simpl. now rewrite Kn, Ki.
Qed.

(** With no UV set requested the constructor reads no primvar and
    stores no UV data. *)
Theorem no_uv_set_no_uvs `{Arith} (prim : UsdPrim) (frames : list Z)
    (keepCentered : bool) (model : UsdPrim) (ReadFloat2AsUV : bool)
    (log0 : list string) :
  let g := GeoData_new prim "" frames keepCentered model ReadFloat2AsUV
             log0 in
  m_uvs g = [] /\ m_uvIndices g = [].
Proof.
  intros g. subst g. unfold GeoData_new, construct_new.
  rewrite construct_start.
  assert (Hk : forall X (f : GeoData -> X),
             (forall v g, f (set_vertexIndices v g) = f g) ->
             (forall v g, f (set_faceCounts v g) = f g) ->
             (forall v g, f (set_faceSelectionIndices v g) = f g) ->
             (forall v g, f (set_normals v g) = f g) ->
             (forall v g, f (set_normalIndices v g) = f g) ->
             Keeps f (readTopology prim "" ReadFloat2AsUV)).
  { intros X f H1 H2 H3 H4 H5.
    unfold readTopology, checkMesh, readFaceVertexIndices,
      readFaceVertexCounts, createFaceSelectionIndices, readUVs, readNormals.
    cbn [String.length Nat.ltb Nat.leb].
    repeat first
      [ apply Keeps_ret | apply Keeps_log_and_return | apply Keeps_trace
      | apply Keeps_bind; [|intro]
      | apply Keeps_modify; intro; auto
      | match goal with
        | |- Keeps _ (match ?x with _ => _ end) => destruct x
        end ]. }
  split.
  - rewrite Keeps_bind; [reflexivity | now apply Hk | intros _].
    apply finish_keeps; [reflexivity | apply readSubdiv_keeps_uvs].
  - rewrite Keeps_bind; [reflexivity | now apply Hk | intros _].
    apply finish_keeps; [reflexivity | apply readSubdiv_keeps_uvIndices].
Qed.

End AttributeFacts.

(** ** More on the subdivision members *)

Module SubdivMore.

Import CtorFacts ConstructFacts BakingFacts RunFacts SubdivFacts.

Ltac branches :=
  repeat match goal with
         | |- context [if ?b then _ else _] => destruct b eqn:?
         end.

Section Scheme.

Context `{Arith}.

Variable prim : UsdPrim.

Lemma readSubdivArrays_creases g :
  creases (readSubdivArrays prim g) =
  (match CreaseIndices_Get prim with
   | Some a => a | None => m_creaseIndices g end,
   match CreaseLengths_Get prim with
   | Some a => a | None => m_creaseLengths g end,
   match CreaseSharpnesses_Get prim with
   | Some a => a | None => m_creaseSharpness g end,
   match CornerIndices_Get prim with
   | Some a => a | None => m_cornerIndices g end,
   match CornerSharpnesses_Get prim with
   | Some a => a | None => m_cornerSharpness g end,
   match HoleIndices_Get prim with
   | Some a => a | None => m_holeIndices g end).
Proof.
  unfold readSubdivArrays, store_if.
  destruct (CreaseIndices_Get prim), (CreaseLengths_Get prim),
    (CreaseSharpnesses_Get prim), (CornerIndices_Get prim),
    (CornerSharpnesses_Get prim), (HoleIndices_Get prim); reflexivity.
Qed.

Lemma readSubdivisionScheme_creases g :
  creases (readSubdivisionScheme prim g) = creases g.
Proof.
  unfold readSubdivisionScheme, mapFaceVaryingLinearInterpolation,
    mapInterpolateBoundary, mapScheme.
  destruct (SubdivisionScheme_Get prim) as [scheme|]; [|reflexivity].
  destruct (InterpolateBoundary_Get prim),
    (FaceVaryingLinearInterpolation_Get prim); branches; reflexivity.
Qed.





End Scheme.

Section End_.

Context `{Arith}.

Variable prim : UsdPrim.
Variable uvSet : string.
Variable frames : list Z.
Variable keepCentered : bool.
Variable model : UsdPrim.
Variable ReadFloat2AsUV : bool.

Lemma readTopology_keeps_creases :
  Keeps creases (readTopology prim uvSet ReadFloat2AsUV).
Proof.
  unfold readTopology, checkMesh, readFaceVertexIndices,
    readFaceVertexCounts, createFaceSelectionIndices, readUVs, readNormals.
  keeps.
Qed.

(** The object built is the object the phases before the subdivision
    one left, which has no crease and the subdivision members of
    [Init], gone through the subdivision phase if the constructor ran
    to its end. *)
Lemma construct_end log0 :
  exists g0,
    subdivDefault g0
    /\ creases g0 = ([], [], [], [], [], [])
    /\ match fst (construct prim uvSet frames keepCentered model
                    ReadFloat2AsUV (start log0)) with
       | Some _ =>
           GeoData_new prim uvSet frames keepCentered model ReadFloat2AsUV
             log0
           = readSubdivisionScheme prim (readSubdivArrays prim g0)
       | None =>
           GeoData_new prim uvSet frames keepCentered model ReadFloat2AsUV
             log0 = g0
       end.
Proof.
  unfold GeoData_new, construct_new. rewrite construct_start.
  rewrite <- (bind_assoc (readTopology prim uvSet ReadFloat2AsUV)
                (fun _ => bakeFrames prim keepCentered model frames)
                (fun _ => readSubdiv prim)).
  assert (Hk : Keeps subdivision
                 (bind (readTopology prim uvSet ReadFloat2AsUV)
                    (fun _ => bakeFrames prim keepCentered model frames))).
  { apply Keeps_bind; [apply readTopology_keeps_subdivision | intros _].
    now apply bakeFrames_keeps. }
  assert (Hc : Keeps creases
                 (bind (readTopology prim uvSet ReadFloat2AsUV)
                    (fun _ => bakeFrames prim keepCentered model frames))).
  { apply Keeps_bind; [apply readTopology_keeps_creases | intros _].
    now apply bakeFrames_keeps. }
  specialize (Hk (start log0)). specialize (Hc (start log0)).
  destruct (bind (readTopology prim uvSet ReadFloat2AsUV)
              (fun _ => bakeFrames prim keepCentered model frames)
              (start log0)) as [[[]|] s2] eqn:Hrun;
    simpl in Hk, Hc; exists (this s2);
    (split; [exact Hk|]); (split; [exact Hc|]).
  - now rewrite (bind_ok _ _ _ _ _ Hrun).
  - now rewrite (bind_stop _ _ _ _ Hrun).
Qed.

End End_.



(** The crease, corner and hole arrays of a construction that ran to
    its end are those of the prim that can be read, each one apart from
    the others, and none for the others; a construction that returned
    before its end stored none of them. *)
Theorem creases_stored_at_end `{Arith} (prim : UsdPrim) (uvSet : string)
    (frames : list Z) (keepCentered : bool) (model : UsdPrim)
    (ReadFloat2AsUV : bool) (log0 : list string) :
  creases
    (GeoData_new prim uvSet frames keepCentered model ReadFloat2AsUV log0)
  = match fst (construct prim uvSet frames keepCentered model
                 ReadFloat2AsUV (start log0)) with
    | Some _ =>
        (orEmpty (CreaseIndices_Get prim), orEmpty (CreaseLengths_Get prim),
         orEmpty (CreaseSharpnesses_Get prim),
         orEmpty (CornerIndices_Get prim),
         orEmpty (CornerSharpnesses_Get prim),
         orEmpty (HoleIndices_Get prim))
    | None => ([], [], [], [], [], [])
    end.
Proof.
  destruct (construct_end prim uvSet frames keepCentered model
              ReadFloat2AsUV log0) as (g0 & _ & Hc & Hend).
  destruct (fst (construct prim uvSet frames keepCentered model
                   ReadFloat2AsUV (start log0))) as [[]|];
    rewrite Hend; [|exact Hc].
  rewrite readSubdivisionScheme_creases, readSubdivArrays_creases.
  unfold creases in Hc. injection Hc as -> -> -> -> -> ->.
  reflexivity.
Qed.

End SubdivMore.

(** ** Looking frames up, and resetting *)

Module AccessFacts.

(** The vector whose first element [GetVertices] takes the address of:
    that of the frame asked for when the map holds it, that of the
    first entry of the map otherwise. *)
Lemma GetVertices_selects `{Arith} (g : GeoData) (frameSample : Z) :
  match m_vertices g with
  | [] => GetVertices g frameSample = NULL
  | (_, second) :: _ =>
      GetVertices g frameSample =
      address_of_first
        match FrameMap.find frameSample (m_vertices g) with
        | Some v => v
        | None => second
        end
  end.
Proof.
  unfold GetVertices. destruct (m_vertices g) as [|[k0 v0] r] eqn:Hm.
  - reflexivity.
  - cbn [FrameMap.size List.length Nat.ltb Nat.leb FrameMap.begin hd_error].
    now destruct (FrameMap.find frameSample ((k0, v0) :: r)).
Qed.

(** [GetVertices] returns a pointer to vertex data exactly when the
    vector it selects, the one of the frame asked for if the map holds
    that frame and the one of the first entry of the map if not, is not
    empty; it returns the null pointer when the map is empty and what it
    returns is not defined when the vector selected is empty.  On a
    boolean-true snapshot, a frame that the map does not hold always
    gets a pointer to vertex data. *)
Theorem GetVertices_defined_iff `{Arith} (g : GeoData) (frameSample : Z) :
  ((exists first rest, GetVertices g frameSample = PointerTo first rest) <->
   exists v,
     v <> []
     /\ (FrameMap.find frameSample (m_vertices g) = Some v
         \/ (FrameMap.find frameSample (m_vertices g) = None
             /\ exists k0, FrameMap.begin (m_vertices g) = Some (k0, v))))
  /\ (m_vertices g = [] -> GetVertices g frameSample = NULL)
  /\ (FrameMap.find frameSample (m_vertices g) = Some [] ->
      GetVertices g frameSample = Undefined)
  /\ (operator_bool g = true ->
      FrameMap.find frameSample (m_vertices g) = None ->
      exists first rest, GetVertices g frameSample = PointerTo first rest).
Proof.
  pose proof (GetVertices_selects g frameSample) as Hsel.
  unfold operator_bool.
  destruct (m_vertices g) as [|[k0 v0] r] eqn:Hm.
  - rewrite Hsel. repeat split; try discriminate.
    + intros (first & rest & Hp). discriminate Hp.
    + intros (v & _ & [Hf|[_ (k & Hb)]]); discriminate.
  - rewrite Hsel.
    cbn [FrameMap.begin hd_error FrameMap.size List.length].
    destruct (FrameMap.find frameSample ((k0, v0) :: r)) as [v|] eqn:Hf.
    + repeat split; try discriminate.
      * intros (first & rest & Hp). exists v. split; [|now left].
        destruct v; [discriminate Hp | discriminate].
      * intros (v' & Hne & [Hv|[Hv _]]); [|discriminate Hv].
        injection Hv as <-. destruct v as [|first rest]; [contradiction|].
        now exists first, rest.
      * intros Hv. injection Hv as ->. reflexivity.
    + repeat split; try discriminate.
      * intros (first & rest & Hp). exists v0. split.
        -- destruct v0; [discriminate Hp | discriminate].
        -- right. split; [reflexivity|]. now exists k0.
      * intros (v' & Hne & [Hv|[_ (k & Hb)]]); [discriminate Hv|].
        injection Hb as _ <-. destruct v0 as [|first rest]; [contradiction|].
        now exists first, rest.
      * intros Hok _. destruct v0 as [|first rest]; [discriminate Hok|].
        now exists first, rest.
Qed.

(** Asked for a frame that the snapshot does not hold, [GetVertices]
    takes the address of the first vertex of the frame of least number
    that it holds: a pointer to that frame's vertices when there are
    some. *)
Theorem GetVertices_fallback `{Arith} (g : GeoData) (frameSample : Z) :
  FrameMap.wf (m_vertices g) ->
  m_vertices g <> [] ->
  FrameMap.find frameSample (m_vertices g) = None ->
  exists k v,
    FrameMap.find k (m_vertices g) = Some v
    /\ (forall k', In k' (FrameMap.keys (m_vertices g)) -> k <= k')
    /\ GetVertices g frameSample = address_of_first v
    /\ (forall first rest,
          v = first :: rest ->
          GetVertices g frameSample = PointerTo first rest).
Proof.
  intros Hwf Hne Hfind.
  pose proof (GetVertices_selects g frameSample) as Hsel.
  rewrite Hfind in Hsel.
  destruct (m_vertices g) as [|[k0 v0] r] eqn:Hm; [contradiction|].
  exists k0, v0.
  destruct (FrameMapFacts.begin_least ((k0, v0) :: r) k0 v0 Hwf eq_refl)
    as [Hf Hleast].
  repeat split; auto. intros first rest ->. exact Hsel.
Qed.

Lemma GetVertices_fallback_witness :
  let g := GeoData_new Samples.creasedTriangle "" [1; 2] false
             Samples.creasedTriangle true [] in
  exists k v,
    FrameMap.find k (m_vertices g) = Some v
    /\ (forall k', In k' (FrameMap.keys (m_vertices g)) -> k <= k')
    /\ GetVertices g 7 = address_of_first v
    /\ (forall first rest,
          v = first :: rest -> GetVertices g 7 = PointerTo first rest).
Proof.
  apply (GetVertices_fallback
           (GeoData_new Samples.creasedTriangle "" [1; 2] false
              Samples.creasedTriangle true []) 7).
  - vm_compute. split; [reflexivity | exact I].
  - discriminate.
  - reflexivity.
Defined.

(** [Reset] empties every sequence and the vertex map, so that the
    snapshot is boolean-false and [GetVertices] returns the null
    pointer, and it leaves the subdivision flag, scheme name and codes
    as they were. *)
Lemma Reset_clears_sequences `{Arith} (g : GeoData) (frameSample : Z) :
  geometry (Reset g) = geometry fresh
  /\ creases (Reset g) = creases fresh
  /\ subdivision (Reset g) = subdivision g
  /\ operator_bool (Reset g) = false
  /\ GetVertices (Reset g) frameSample = NULL.
Proof. repeat split. Qed.

End AccessFacts.

(** ** The UV sets of a prim *)

Module UvSetsFacts.

Lemma UVSet_find_insert (k : string) (v : Z) (m : UVSet.t) (k0 : string) :
  UVSet.find k0 (UVSet.insert k v m)
  = if String.eqb k0 k then Some v else UVSet.find k0 m.
Proof.
  induction m as [|[k' v'] r IH]; simpl; [reflexivity|].
  destruct (String.ltb k k'); [reflexivity|].
  destruct (String.eqb k k') eqn:Heq.
  - apply String.eqb_eq in Heq. subst k'. simpl.
    destruct (String.eqb k0 k); reflexivity.
  - apply String.eqb_neq in Heq. simpl. rewrite IH.
    destruct (String.eqb k0 k') eqn:H1, (String.eqb k0 k) eqn:H2;
      try reflexivity.
    apply String.eqb_eq in H1, H2. congruence.
Qed.

Lemma counted_counted (before : option Z) (c1 c2 : Z) :
  0 <= c1 -> 0 <= c2 ->
  counted (counted before c1) c2 = counted before (c1 + c2).
Proof.
  intros H1 H2. unfold counted. destruct before as [n|].
  - f_equal. lia.
  - destruct (c1 =? 0) eqn:E1.
    + apply Z.eqb_eq in E1. subst c1. reflexivity.
    + apply Z.eqb_neq in E1.
      destruct (c1 + c2 =? 0) eqn:E2; [apply Z.eqb_eq in E2; lia|].
      reflexivity.
Qed.

Section UvSets.

Context `{Arith}.

Variable ReadFloat2AsUV : bool.

Lemma sightings_nonneg n primvars :
  0 <= sightings ReadFloat2AsUV n primvars.
Proof. unfold sightings. lia. Qed.

Lemma sightings_cons n primvar primvars :
  sightings ReadFloat2AsUV n (primvar :: primvars)
  = (if String.eqb (countedName ReadFloat2AsUV primvar) n then 1 else 0)
    + sightings ReadFloat2AsUV n primvars.
Proof.
  unfold sightings. cbn [filter].
  destruct (String.eqb (countedName ReadFloat2AsUV primvar) n);
    cbn [List.length]; lia.
Qed.

(** One iteration of the loop, seen from a name that is not empty. *)
Lemma countPrimvar_find retval primvar n :
  n <> "" ->
  UVSet.find n (countPrimvar ReadFloat2AsUV retval primvar)
  = counted (UVSet.find n retval)
      (if String.eqb (countedName ReadFloat2AsUV primvar) n then 1 else 0).
Proof.
  intros Hn. unfold countPrimvar, countedName.
  destruct (String.eqb (GetInterpolation (snd primvar)) UsdGeomTokens.vertex
            || String.eqb (GetInterpolation (snd primvar))
                 UsdGeomTokens.faceVarying).
  - set (name := mapName ReadFloat2AsUV (fst primvar)
                   (GetTypeName (snd primvar))).
    destruct (String.eqb name n) eqn:Heq.
    + apply String.eqb_eq in Heq. rewrite Heq.
      destruct n as [|c n']; [contradiction|].
      cbn [String.length Nat.ltb Nat.leb].
      destruct (UVSet.find (String c n') retval) as [count|] eqn:Hf;
        rewrite UVSet_find_insert, String.eqb_refl; reflexivity.
    + destruct (0 <? String.length name)%nat.
      * rewrite String.eqb_sym in Heq.
        destruct (UVSet.find name retval);
          rewrite UVSet_find_insert, Heq;
          destruct (UVSet.find n retval); simpl; f_equal; lia.
      * destruct (UVSet.find n retval); simpl; f_equal; lia.
  - assert (Heq : String.eqb "" n = false)
      by (apply String.eqb_neq; congruence).
    rewrite Heq. destruct (UVSet.find n retval); simpl; f_equal; lia.
Qed.

Lemma fold_countPrimvar_find primvars retval n :
  n <> "" ->
  UVSet.find n (fold_left (countPrimvar ReadFloat2AsUV) primvars retval)
  = counted (UVSet.find n retval) (sightings ReadFloat2AsUV n primvars).
Proof.
  intros Hn. revert retval.
  induction primvars as [|primvar primvars IH]; intros retval.
  - simpl. unfold sightings. simpl.
    destruct (UVSet.find n retval); simpl; f_equal; lia.
  - cbn [fold_left]. rewrite IH, countPrimvar_find by exact Hn.
    rewrite sightings_cons, counted_counted.
    + reflexivity.
    + destruct (String.eqb (countedName ReadFloat2AsUV primvar) n); lia.
    + apply sightings_nonneg.
Qed.

Lemma countPrimvar_find_blank retval primvar :
  UVSet.find "" (countPrimvar ReadFloat2AsUV retval primvar)
  = UVSet.find "" retval.
Proof.
  unfold countPrimvar.
  destruct (String.eqb (GetInterpolation (snd primvar)) UsdGeomTokens.vertex
            || String.eqb (GetInterpolation (snd primvar))
                 UsdGeomTokens.faceVarying); [|reflexivity].
  destruct (mapName ReadFloat2AsUV (fst primvar)
              (GetTypeName (snd primvar))) as [|c name] eqn:Hname;
    [reflexivity|].
  cbn [String.length Nat.ltb Nat.leb].
  destruct (UVSet.find (String c name) retval);
    now rewrite UVSet_find_insert.
Qed.

(** A primvar that the constructor accepts as a UV set is counted
    under its own name. *)
Lemma accepted_countedName name primvar :
  uvAccepted ReadFloat2AsUV primvar = true ->
  countedName ReadFloat2AsUV (name, primvar) = name.
Proof.
  unfold uvAccepted, countedName, mapName. cbn [fst snd].
  intros Hacc. apply andb_true_iff in Hacc as [Hint Htype].
  rewrite Hint, Htype.
  destruct (GetTypeName primvar); cbn [is_FloatArray];
    rewrite ?andb_false_r; try reflexivity.
  simpl in Htype. rewrite andb_false_r in Htype. discriminate Htype.
Qed.

End UvSets.

(** For a gprim, the count of every name that is not empty grows by the
    number of its vertex or face-varying primvars counted under that
    name (a [u_] or [v_] float array under the rest of its name, texture
    coordinates under their own), a name not yet there entering with
    that number when it is not zero; for a prim that is not a gprim the
    catalogue is returned as it was. *)
Theorem GetUvSets_counts `{Arith} (ReadFloat2AsUV : bool)
    (prim : UsdGeomGprim) (retval : UVSet.t) (n : string) :
  n <> "" ->
  UVSet.find n (GetUvSets ReadFloat2AsUV prim retval)
  = if IsGprim prim
    then counted (UVSet.find n retval)
           (sightings ReadFloat2AsUV n (GetPrimvars prim))
    else UVSet.find n retval.
Proof.
  intros Hn. unfold GetUvSets. destruct (IsGprim prim); simpl.
  - now apply fold_countPrimvar_find.
  - reflexivity.
Qed.

Lemma GetUvSets_counts_witness :
  UVSet.find "map1" (GetUvSets true Samples.legacyGprim UVSet.empty)
  = if IsGprim Samples.legacyGprim
    then counted (UVSet.find "map1" UVSet.empty)
           (sightings true "map1" (GetPrimvars Samples.legacyGprim))
    else UVSet.find "map1" UVSet.empty.
Proof.
  apply (GetUvSets_counts true Samples.legacyGprim UVSet.empty "map1").
  discriminate.
Defined.

(** [GetUvSets] counts nothing under the empty name: a primvar whose
    name is only the prefix [u_] or [v_] is left out. *)
Theorem GetUvSets_no_blank_name `{Arith} (ReadFloat2AsUV : bool)
    (prim : UsdGeomGprim) (retval : UVSet.t) :
  UVSet.find "" (GetUvSets ReadFloat2AsUV prim retval)
  = UVSet.find "" retval.
Proof.
  unfold GetUvSets. destruct (IsGprim prim); simpl; [|reflexivity].
  revert retval.
  induction (GetPrimvars prim) as [|primvar primvars IH]; intros retval.
  - reflexivity.
  - cbn [fold_left]. now rewrite IH, countPrimvar_find_blank.
Qed.

(** Every primvar of a gprim that the constructor would accept as a UV
    set is listed by [GetUvSets] under its name, with a count of one at
    least. *)
Theorem GetUvSets_lists_accepted `{Arith} (ReadFloat2AsUV : bool)
    (prim : UsdGeomGprim) (retval : UVSet.t) (name : TfToken)
    (primvar : UsdGeomPrimvar) :
  IsGprim prim = true ->
  In (name, primvar) (GetPrimvars prim) ->
  name <> "" ->
  uvAccepted ReadFloat2AsUV primvar = true ->
  exists count,
    UVSet.find name (GetUvSets ReadFloat2AsUV prim retval) = Some count
    /\ (forall before, UVSet.find name retval = Some before ->
                       before < count)
    /\ (UVSet.find name retval = None -> 1 <= count).
Proof.
  intros Hg Hin Hname Hacc. unfold GetUvSets. rewrite Hg. cbn [negb].
  rewrite (fold_countPrimvar_find ReadFloat2AsUV _ retval name Hname).
  assert (Hs : 1 <= sightings ReadFloat2AsUV name (GetPrimvars prim)).
  { induction (GetPrimvars prim) as [|p l IH]; [contradiction|].
    rewrite sightings_cons. pose proof (sightings_nonneg ReadFloat2AsUV name l).
    destruct Hin as [->|Hin].
    - rewrite (accepted_countedName ReadFloat2AsUV name primvar Hacc),
        String.eqb_refl. lia.
    - specialize (IH Hin).
      destruct (String.eqb (countedName ReadFloat2AsUV p) name); lia. }
  unfold counted. destruct (UVSet.find name retval) as [before|].
  - eexists. split; [reflexivity|]. split; [|discriminate].
    intros b Hb. injection Hb as <-. lia.
  - destruct (sightings ReadFloat2AsUV name (GetPrimvars prim) =? 0) eqn:E;
      [apply Z.eqb_eq in E; lia|].
    eexists. split; [reflexivity|]. split; [discriminate | intros _; lia].
Qed.

Lemma GetUvSets_lists_accepted_witness :
  exists count,
    UVSet.find "st" (GetUvSets true Samples.legacyGprim UVSet.empty)
    = Some count
    /\ (forall before, UVSet.find "st" UVSet.empty = Some before ->
                       before < count)
    /\ (UVSet.find "st" UVSet.empty = None -> 1 <= count).
Proof.
  apply (GetUvSets_lists_accepted true Samples.legacyGprim UVSet.empty "st"
           Samples.indexedSt).
  - reflexivity.
  - simpl. tauto.
  - discriminate.
  - reflexivity.
Defined.

End UvSetsFacts.
